(** * amp-search-tool: a relay in front of the Bedrock agent runtime

    Shallow embedding of [utils.js] (prompt and session sanitizers),
    [agent.js] (streamed agent invocation), [retrieval.js] (retrieve and
    generate with citation signing) and the Express routes of [index.js].

    JavaScript strings are sequences of UTF-16 code units; [length],
    [trim] and the regular expressions of the sources (none carries the
    [u] flag) all work on code units, so a string is a [list N]. *)

From Stdlib Require Import List NArith ZArith String Ascii Bool Lia.
From Stdlib Require Import Numbers.DecimalString.
Import ListNotations.

Set Implicit Arguments.
Open Scope string_scope.
Open Scope list_scope.

(** ** JavaScript strings *)

Module JsString.

Definition code_unit := N.
Definition jsstring := list code_unit.

(** An ASCII literal of the source as a code unit sequence. *)
Definition str (s : string) : jsstring :=
  map N_of_ascii (list_ascii_of_string s).

(** The code unit of an ASCII character literal. *)
Definition chr (a : ascii) : code_unit := N_of_ascii a.
Arguments chr a%_char.

Definition jsstring_eqb (a b : jsstring) : bool :=
  if list_eq_dec N.eq_dec a b then true else false.

(** ECMAScript WhiteSpace and LineTerminator code points: what
    [String.prototype.trim] removes at both ends. *)
Definition is_line_terminator (c : code_unit) : bool :=
  ((c =? 10) || (c =? 13) || (c =? 8232) || (c =? 8233))%N.

Definition is_white_space (c : code_unit) : bool :=
  ((c =? 9) || (c =? 11) || (c =? 12) || (c =? 32) || (c =? 160)
   || (c =? 5760) || ((8192 <=? c) && (c <=? 8202))
   || (c =? 8239) || (c =? 8287) || (c =? 12288) || (c =? 65279))%N.

Definition is_trimmed (c : code_unit) : bool :=
  is_white_space c || is_line_terminator c.

Fixpoint trimStart (s : jsstring) : jsstring :=
  match s with
  | [] => []
  | c :: s' => if is_trimmed c then trimStart s' else s
  end.

Definition trimEnd (s : jsstring) : jsstring := rev (trimStart (rev s)).

Definition trim (s : jsstring) : jsstring := trimEnd (trimStart s).

(** [s.replace(/[...]/g, r)] for a pattern that matches exactly one code
    unit (a character or a character class [p]) and a replacement [r]
    without [$] patterns: every matching code unit becomes [r]. *)
Definition replace_g (p : code_unit -> bool) (r : jsstring) (s : jsstring)
  : jsstring :=
  flat_map (fun c => if p c then r else [c]) s.

(** What is left of [s] after its prefix [p], when [s] starts with [p]. *)
Fixpoint strip_prefix (p s : jsstring) : option jsstring :=
  match p, s with
  | [], _ => Some s
  | a :: p', b :: s' => if (a =? b)%N then strip_prefix p' s' else None
  | _ :: _, [] => None
  end.

(** Splits [s] at its first code unit satisfying [p]: the part before,
    and the part after when there is such a code unit. *)
Fixpoint break_at (p : code_unit -> bool) (s : jsstring)
  : jsstring * option jsstring :=
  match s with
  | [] => ([], None)
  | c :: s' =>
      if p c then ([], Some s')
      else let (a, b) := break_at p s' in (c :: a, b)
  end.

(** ASCII-only case mapping and byte decoding; they agree with the
    engine's [toLowerCase] and [TextDecoder] on ASCII input. *)
Definition ascii_lower (c : code_unit) : code_unit :=
  if ((65 <=? c) && (c <=? 90))%N then (c + 32)%N else c.

End JsString.
Export JsString.

(** The built-ins of the engine that the sources call and that are
    tables of the Unicode standard rather than code of this repository. *)
Class Platform := {
  (** [String.prototype.toLowerCase] *)
  toLowerCase : jsstring -> jsstring;
  (** [new TextDecoder("utf-8").decode(bytes)] *)
  utf8_decode : list N -> jsstring
}.

(** The platform restricted to ASCII, for running the model. *)
Definition ascii_platform : Platform := {|
  toLowerCase := map ascii_lower;
  utf8_decode := fun b => b
|}.

(** ** Errors and outcomes *)

(** A thrown [Error] object: the fields the sources read. *)
Record js_error := mkError {
  err_name : string;
  err_code : option jsstring;
  err_message : jsstring
}.

(** [new Error(msg)] and the engine's [TypeError]. *)
Definition Error (msg : jsstring) : js_error := mkError "Error" None msg.
Definition TypeError (msg : jsstring) : js_error :=
  mkError "TypeError" None msg.

(** A call either returns (an [async] function: its promise fulfils) or
    throws (the promise rejects). *)
Inductive outcome (A : Type) : Type :=
| Ok (a : A)
| Throw (e : js_error).
Arguments Ok {A} a.
Arguments Throw {A} e.

(** ** utils.js *)

Module Utils.
Section WithPlatform.
Context {P : Platform}.

Definition is_special (c : code_unit) : bool :=
  ((c =? chr "<") || (c =? chr ">") || (c =? chr ";")
   || (c =? chr "&") || (c =? chr "|"))%N.

(** The chain of string methods that computes [sanitizedPrompt]. *)
Definition sanitizedPrompt (prompt : jsstring) : jsstring :=
  replace_g (N.eqb (chr ">")) (str "&gt;")
    (replace_g (N.eqb (chr "<")) (str "&lt;")
       (replace_g (N.eqb (chr "&")) (str "&amp;")
          (replace_g is_special (str "")
             (toLowerCase (trim prompt))))).

Definition sanitize (prompt : jsstring) : outcome jsstring :=
  let sanitizedPrompt := sanitizedPrompt prompt in
  if (2048 <? List.length sanitizedPrompt)%nat
  then Throw (Error (str "Prompt is too long"))
  else Ok sanitizedPrompt.

(** The character class [[^0-9a-zA-Z._:-]] of [sanitizeSessionID],
    complemented: the code units that stay. *)
Definition is_session_char (c : code_unit) : bool :=
  (((48 <=? c) && (c <=? 57)) || ((97 <=? c) && (c <=? 122))
   || ((65 <=? c) && (c <=? 90))
   || (c =? chr ".") || (c =? chr "_") || (c =? chr ":") || (c =? chr "-"))%N.

Definition sanitizeSessionID (input : jsstring) : jsstring :=
  replace_g (fun c => negb (is_session_char c)) (str "") input.

(** The same pipeline as the specification words it: trim, lowercase,
    strip the five characters, and no escaping at all. *)
Definition sanitize_without_escape (prompt : jsstring) : outcome jsstring :=
  let cleaned := filter (fun c => negb (is_special c))
                   (toLowerCase (trim prompt)) in
  if (2048 <? List.length cleaned)%nat
  then Throw (Error (str "Prompt is too long"))
  else Ok cleaned.

End WithPlatform.
End Utils.

(** ** JSON-like values

    What the retrieval upstream returns and what the routes receive and
    send: the values of deserialised JSON, plus [undefined]. An object
    keeps its properties in the engine's property order. Numbers are the
    integers, which is all the sources write and read. *)

Module JsValue.

#[warnings="-register-all"] Inductive value : Type :=
| VUndefined
| VNull
| VBool (b : bool)
| VNumber (n : Z)
| VString (s : jsstring)
| VArray (items : list value)
| VObject (props : list (string * value)).

Fixpoint lookup (k : string) (props : list (string * value))
  : option value :=
  match props with
  | [] => None
  | (k', v) :: rest => if String.eqb k k' then Some v else lookup k rest
  end.

Definition get_own (k : string) (props : list (string * value)) : value :=
  match lookup k props with
  | Some v => v
  | None => VUndefined
  end.

Definition cannot_read (base key : string) : js_error :=
  TypeError (str ("Cannot read properties of " ++ base
                    ++ " (reading '" ++ key ++ "')")%string).

Definition not_a_function (what : string) : js_error :=
  TypeError (str (what ++ " is not a function")%string).

(** [v.k] for a data property [k] (none of the names the sources read
    lives on a built-in prototype). *)
Definition get (k : string) (v : value) : outcome value :=
  match v with
  | VUndefined => Throw (cannot_read "undefined" k)
  | VNull => Throw (cannot_read "null" k)
  | VObject props => Ok (get_own k props)
  | _ => Ok VUndefined
  end.

(** [v?.k] *)
Definition get_opt (k : string) (v : value) : value :=
  match v with
  | VObject props => get_own k props
  | _ => VUndefined
  end.

(** ToBoolean *)
Definition truthy (v : value) : bool :=
  match v with
  | VUndefined | VNull => false
  | VBool b => b
  | VNumber n => negb (n =? 0)%Z
  | VString s => negb (jsstring_eqb s [])
  | VArray _ | VObject _ => true
  end.

(** [obj.k = v] on a plain object: an existing property keeps its place,
    a new one goes last. *)
Fixpoint set_prop (k : string) (v : value) (props : list (string * value))
  : list (string * value) :=
  match props with
  | [] => [(k, v)]
  | (k', v') :: rest =>
      if String.eqb k k' then (k, v) :: rest
      else (k', v') :: set_prop k v rest
  end.

(** The own enumerable properties that [{...v}] copies. The sources only
    spread a value whose nested properties they have just read, which is
    an object. *)
Definition spread (v : value) : list (string * value) :=
  match v with
  | VObject props => props
  | _ => []
  end.

Definition join (sep : jsstring) (parts : list jsstring) : jsstring :=
  match parts with
  | [] => []
  | p :: rest => p ++ flat_map (fun q => sep ++ q) rest
  end.

(** ToString, as a template literal applies it. *)
Fixpoint to_string (v : value) : jsstring :=
  match v with
  | VUndefined => str "undefined"
  | VNull => str "null"
  | VBool true => str "true"
  | VBool false => str "false"
  | VNumber n => str (NilEmpty.string_of_int (Z.to_int n))
  | VString s => s
  | VArray items =>
      join (str ",")
        (map (fun i => match i with
                       | VUndefined | VNull => []
                       | _ => to_string i
                       end) items)
  | VObject _ => str "[object Object]"
  end.

(** Calling a [String.prototype] method [meth] on [v], written [what]
    in the source, and continuing with [f] on the string. *)
Definition on_string {A} (what meth : string) (v : value)
    (f : jsstring -> outcome A) : outcome A :=
  match v with
  | VString s => f s
  | VUndefined => Throw (cannot_read "undefined" meth)
  | VNull => Throw (cannot_read "null" meth)
  | _ => Throw (not_a_function (what ++ "." ++ meth)%string)
  end.

End JsValue.
Export JsValue.

(** ** Collaborators and the trace of a request

    The AWS SDK clients are external. Each is a stub that answers a
    request with a result or a failure; the calls made and the console
    output are recorded in the [World], oldest first. *)

Module Sdk.

(** [ResponseStream] events of the agent runtime: the [chunk] member is
    a [PayloadPart] carrying [bytes]; every other member of the union
    (trace, returnControl, files) leaves [chunk] undefined. *)
Record PayloadPart := { bytes : option (list N) }.
Record ResponseStream := { chunk : option PayloadPart }.

(** The async iterable [completion]: the events it yields and, when the
    stream breaks after them, the error the iteration throws. *)
Record CompletionStream := {
  events : list ResponseStream;
  failure : option js_error
}.

Record InvokeAgentCommandOutput := {
  completion : option CompletionStream
}.

Record InvokeAgentCommandInput := {
  agentId : option jsstring;
  agentAliasId : option jsstring;
  sessionId : jsstring;
  inputText : jsstring
}.

Record GetObjectCommandInput := { Bucket : jsstring; Key : jsstring }.

Record Upstream := {
  (** [process.env] *)
  env : string -> option jsstring;
  (** [client.send(new InvokeAgentCommand(input))] *)
  send_InvokeAgent : InvokeAgentCommandInput -> outcome InvokeAgentCommandOutput;
  (** [client.send(new RetrieveAndGenerateCommand(input))] *)
  send_RetrieveAndGenerate : value -> outcome value;
  (** [getSignedUrl(s3Client, new GetObjectCommand(input), { expiresIn })] *)
  getSignedUrl : GetObjectCommandInput -> N -> outcome jsstring
}.

End Sdk.
Export Sdk.

Inductive console_arg :=
| ArgValue (v : value)
| ArgError (e : js_error)
| ArgChunk (c : option PayloadPart).

Inductive console_entry :=
| console_log (args : list console_arg)
| console_error (args : list console_arg).

Record World := {
  agent_calls : list InvokeAgentCommandInput;
  retrieval_calls : list value;
  signer_calls : list (GetObjectCommandInput * N);
  console : list console_entry
}.

Definition empty_world : World :=
  {| agent_calls := []; retrieval_calls := []; signer_calls := [];
     console := [] |}.

(** An asynchronous computation: it runs in a world, settles with an
    outcome and leaves the world with its calls recorded. *)
Module Async.

Definition t (A : Type) : Type := World -> outcome A * World.

Definition ret {A} (a : A) : t A := fun w => (Ok a, w).

Definition throw {A} (e : js_error) : t A := fun w => (Throw e, w).

Definition bind {A B} (m : t A) (k : A -> t B) : t B :=
  fun w =>
    match m w with
    | (Ok a, w') => k a w'
    | (Throw e, w') => (Throw e, w')
    end.

(** A synchronous call that may throw. *)
Definition lift {A} (o : outcome A) : t A := fun w => (o, w).

(** [try { m } catch (error) { handler(error) }] *)
Definition try_catch {A} (m : t A) (handler : js_error -> t A) : t A :=
  fun w =>
    match m w with
    | (Ok a, w') => (Ok a, w')
    | (Throw e, w') => handler e w'
    end.

Definition print (entry : console_entry) : t unit :=
  fun w =>
    (Ok tt,
     {| agent_calls := agent_calls w; retrieval_calls := retrieval_calls w;
        signer_calls := signer_calls w; console := console w ++ [entry] |}).

(** Outcomes of promises that have all been started, in index order. *)
Fixpoint collect {A} (os : list (outcome A)) : outcome (list A) :=
  match os with
  | [] => Ok []
  | Throw e :: _ => Throw e
  | Ok a :: rest =>
      match collect rest with
      | Ok l => Ok (a :: l)
      | Throw e => Throw e
      end
  end.

(** Starts [f x] for every [x], in order, whatever the earlier ones do;
    this is [xs.map(async (x) => ...)], every callback being started
    before any is awaited. *)
Fixpoint start_all {A B} (f : A -> t B) (xs : list A)
  : World -> list (outcome B) * World :=
  fun w =>
    match xs with
    | [] => ([], w)
    | x :: rest =>
        let (o, w1) := f x w in
        let (os, w2) := start_all f rest w1 in
        (o :: os, w2)
    end.

(** [await Promise.all(xs.map(async (x) => f x))]: fulfils with all the
    results in index order, or rejects when one of the promises does.
    When several reject, JavaScript reports the one that settles first
    in time; the model has no clock and reports the one of lowest
    index. *)
Definition Promise_all_map {A B} (f : A -> t B) (xs : list A) : t (list B) :=
  fun w => let (os, w') := start_all f xs w in (collect os, w').

End Async.

Declare Scope async_scope.
Delimit Scope async_scope with async.
Notation "x <- m ;; k" := (Async.bind m (fun x => k))
  (at level 100, m at next level, right associativity) : async_scope.
Notation "' pat <- m ;; k" :=
  (Async.bind m (fun x => match x with pat => k end))
  (at level 100, pat pattern, m at next level, right associativity)
  : async_scope.
Notation "m ;;; k" := (Async.bind m (fun _ => k))
  (at level 100, right associativity) : async_scope.

Local Open Scope async_scope.

(** ** agent.js *)

Module Agent.
Section WithUpstream.
Context {P : Platform} (U : Upstream).

(** What [invokeBedrockAgent] returns when it returns an object. *)
Record result := {
  result_sessionId : jsstring;
  result_completion : jsstring
}.

Definition client_send (command : InvokeAgentCommandInput)
  : Async.t InvokeAgentCommandOutput :=
  fun w =>
    (send_InvokeAgent U command,
     {| agent_calls := agent_calls w ++ [command];
        retrieval_calls := retrieval_calls w;
        signer_calls := signer_calls w; console := console w |}).

(** [new TextDecoder("utf-8").decode(chunk.bytes)]; [decode(undefined)]
    is the empty string. *)
Definition decode (b : option (list N)) : jsstring :=
  match b with
  | Some b => utf8_decode b
  | None => []
  end.

(** The body of the [for await] loop, over the events still to come,
    with [completion] as accumulated so far. *)
Fixpoint consume (evs : list ResponseStream) (completion : jsstring)
  : Async.t jsstring :=
  match evs with
  | [] => Async.ret completion
  | chunkEvent :: rest =>
      let chunk := chunk chunkEvent in
      Async.print (console_log [ArgChunk chunk]) ;;;
      match chunk with
      | None => Async.throw (cannot_read "undefined" "bytes")
      | Some c =>
          let decodedResponse := decode (bytes c) in
          consume rest (completion ++ decodedResponse)
      end
  end.

Definition for_await (s : CompletionStream) (completion : jsstring)
  : Async.t jsstring :=
  completion <- consume (events s) completion ;;
  match failure s with
  | Some e => Async.throw e
  | None => Async.ret completion
  end.

(** [invokeBedrockAgent]; [None] is the [undefined] that the function
    returns when control falls off the end of the [catch] block. *)
Definition invokeBedrockAgent (prompt sessionId : jsstring)
  : Async.t (option result) :=
  let agentId := env U "AGENT_ID" in
  let agentAliasId := env U "AGENT_ALIAS_ID" in
  let command :=
    {| agentId := agentId;
       agentAliasId := agentAliasId;
       sessionId := sessionId;
       inputText := prompt |} in
  Async.try_catch
    (let completion := str "" in
     response <- client_send command ;;
     match Sdk.completion response with
     | None => Async.throw (Error (str "Completion is undefined"))
     | Some stream =>
         completion <- for_await stream completion ;;
         Async.ret (Some {| result_sessionId := sessionId;
                            result_completion := completion |})
     end)
    (fun err =>
       Async.print (console_error [ArgError err]) ;;;
       Async.ret None).

End WithUpstream.
End Agent.

(** ** retrieval.js *)

Module Retrieval.

Definition NUMBER_OF_RESULTS : Z := 5.
Definition OVERRIDE_SEARCH_TYPE : jsstring := str "HYBRID".
Definition MODEL_TYPE : jsstring := str "KNOWLEDGE_BASE".

Definition invalid_s3_uri (s3Uri : jsstring) : js_error :=
  Error (str "Invalid S3 URI: " ++ s3Uri).

(** [s3Uri.match(re)] for the anchored pattern of [parseS3Uri]: the
    literal prefix, a group of one or more non-slash code units, a slash,
    and a group of any code units up to the end. It gives the two groups
    when the string matches. The first group is the longest run without
    a slash after the prefix, and a slash has to follow it; the second is
    the rest, which the dot and the end anchor (no [s], no [m] flag) only
    match when it has no line terminator. *)
Definition match_s3 (s3Uri : jsstring) : option (jsstring * jsstring) :=
  match strip_prefix (str "s3://") s3Uri with
  | None => None
  | Some rest =>
      match break_at (N.eqb (chr "/")) rest with
      | (_, None) => None
      | ([], Some _) => None
      | (bucket, Some key) =>
          if existsb is_line_terminator key then None
          else Some (bucket, key)
      end
  end.

Definition parseS3Uri (s3Uri : value) : outcome (jsstring * jsstring) :=
  match s3Uri with
  | VString s =>
      match match_s3 s with
      | Some (bucket, key) =>
          match bucket, key with
          | [], _ | _, [] => Throw (invalid_s3_uri s)
          | _, _ => Ok (bucket, key)
          end
      | None => Throw (invalid_s3_uri s)
      end
  | _ => Throw (Error (str "Input must be a string: " ++ to_string s3Uri))
  end.

Definition generationConfiguration : value :=
  VObject [("inferenceConfig", VObject [("textInferenceConfig", VObject
    [("temperature", VNumber 0); ("topP", VNumber 1);
     ("topK", VNumber 250); ("maxTokens", VNumber 2048)])])].

Definition orchestrationConfiguration : value :=
  VObject [("inferenceConfig", VObject [("textInferenceConfig", VObject
    [("temperature", VNumber 0); ("topP", VNumber 1);
     ("topK", VNumber 250); ("maxTokens", VNumber 2048)])])].

Section WithUpstream.
Variable U : Upstream.

Definition env_value (name : string) : value :=
  match env U name with
  | Some s => VString s
  | None => VUndefined
  end.

Definition client_send (input : value) : Async.t value :=
  fun w =>
    (send_RetrieveAndGenerate U input,
     {| agent_calls := agent_calls w;
        retrieval_calls := retrieval_calls w ++ [input];
        signer_calls := signer_calls w; console := console w |}).

Definition s3_getSignedUrl (command : GetObjectCommandInput) (expiresIn : N)
  : Async.t jsstring :=
  fun w =>
    (getSignedUrl U command expiresIn,
     {| agent_calls := agent_calls w; retrieval_calls := retrieval_calls w;
        signer_calls := signer_calls w ++ [(command, expiresIn)];
        console := console w |}).

(** [items.map(async ...)] followed by [Promise.all], where [items] is
    read with a plain [.]: it has to be an array. *)
Definition map_all (what : string) (items : value)
    (f : value -> Async.t value) : Async.t (list value) :=
  match items with
  | VArray l => Async.Promise_all_map f l
  | VUndefined => Async.throw (cannot_read "undefined" "map")
  | VNull => Async.throw (cannot_read "null" "map")
  | _ => Async.throw (not_a_function (what ++ ".map")%string)
  end.

(** The callback that [parseCitation] maps over the references. *)
Definition resolveReference (reference : value) : Async.t value :=
  location <- Async.lift (get "location" reference) ;;
  s3Location <- Async.lift (get "s3Location" location) ;;
  uri <- Async.lift (get "uri" s3Location) ;;
  '(bucket, key) <- Async.lift (parseS3Uri uri) ;;
  let command := {| Bucket := bucket; Key := key |} in
  signedUrl <- s3_getSignedUrl command 3600 ;;
  Async.ret (VObject (set_prop "signedUrl" (VString signedUrl)
                        (spread reference))).

Definition parseCitation (citation : value) : Async.t value :=
  let metadata := get_opt "metadata" citation in
  refs <- Async.lift (get "retrievedReferences" citation) ;;
  retrievedReferences <-
    map_all "citation.retrievedReferences" refs resolveReference ;;
  Async.ret (VObject [("metadata", metadata);
                      ("retrievedReferences", VArray retrievedReferences)]).

(** The request object [input] before the session identifier is added. *)
Definition base_input (prompt : jsstring) : list (string * value) :=
  [("input", VObject [("text", VString prompt)]);
   ("retrieveAndGenerateConfiguration", VObject
      [("type", VString MODEL_TYPE);
       ("knowledgeBaseConfiguration", VObject
          [("knowledgeBaseId", env_value "KNOWLEDGE_BASE_ID");
           ("modelArn", env_value "MODEL_ARN");
           ("retrievalConfiguration", VObject
              [("vectorSearchConfiguration", VObject
                  [("numberOfResults", VNumber NUMBER_OF_RESULTS);
                   ("overrideSearchType", VString OVERRIDE_SEARCH_TYPE)])]);
           ("generationConfiguration", generationConfiguration);
           ("orchestrationConfiguration", orchestrationConfiguration)])])].

(** [await Promise.all(response?.citations?.map(async ...))] *)
Definition all_citations (response : value) : Async.t (list value) :=
  match get_opt "citations" response with
  | VArray l => Async.Promise_all_map parseCitation l
  | VUndefined | VNull =>
      Async.throw (TypeError (str "undefined is not iterable"))
  | _ => Async.throw (not_a_function "response?.citations?.map")
  end.

Definition invokeBedrockRetrieval (prompt : jsstring) (sessionId : value)
  : Async.t value :=
  let input := base_input prompt in
  let input :=
    if truthy sessionId then set_prop "sessionId" sessionId input
    else input in
  Async.try_catch
    (response <- client_send (VObject input) ;;
     citations <- all_citations response ;;
     let result :=
       VObject
         [("sessionId", get_opt "sessionId" response);
          ("response", VObject
             [("output", VObject
                 [("text", get_opt "text" (get_opt "output" response))]);
              ("citations", VArray citations);
              ("guardrailAction", get_opt "guardrailAction" response)])] in
     Async.ret (VObject [("sessionId", sessionId); ("response", result)]))
    (fun error =>
       if String.eqb (err_name error) "ServiceException" then
         let errorCode := match err_code error with
                          | Some c => c
                          | None => str "undefined"
                          end in
         let errorMessage := err_message error in
         let text := str "AWS Bedrock API error: " ++ errorCode
                       ++ str " - " ++ errorMessage in
         Async.print (console_error [ArgValue (VString text)]) ;;;
         Async.throw (Error text)
       else
         Async.print (console_error
           [ArgValue (VString (str "Error invoking AWS Bedrock retrieval:"));
            ArgError error]) ;;;
         Async.throw error).

End WithUpstream.
End Retrieval.

(** ** index.js: the /retrieve route *)

(** The HTTP layer under the routes (Express on Node's [http]) is
    external. The one call of the routes whose result depends on it is
    [res.status(code).json(body)] with a string as [code]: the layer
    either answers with a numeric status, or throws, and then nothing is
    sent. *)
Class HttpLayer := {
  status_of_string : jsstring -> outcome Z
}.

Module Index.
Section WithUpstream.
Context {P : Platform} {H : HttpLayer} (U : Upstream).

(** What the route has sent when it is done: [res.status(...)] and the
    body handed to [res.send] or [res.json]. *)
Record http_response := { status : value; body : value }.

Definition post_retrieve (req_body : value) : Async.t http_response :=
  message <- Async.lift (get "message" req_body) ;;
  session_id <- Async.lift (get "session_id" req_body) ;;
  Async.print (console_log [ArgValue (VString (str "Prompt:"));
                            ArgValue message]) ;;;
  if negb (truthy message) then
    Async.ret {| status := VNumber 400;
                 body := VObject
                   [("error", VString (str "Prompt is required"))] |}
  else
    Async.try_catch
      (sanitizedPrompt <-
         Async.lift (on_string "prompt" "trim" message Utils.sanitize) ;;
       sanitizedSessionId <-
         Async.lift (on_string "input" "replace" session_id
                       (fun s => Ok (Utils.sanitizeSessionID s))) ;;
       response <-
         Retrieval.invokeBedrockRetrieval U sanitizedPrompt
           (VString sanitizedSessionId) ;;
       Async.ret {| status := VNumber 200; body := response |})
      (fun error =>
         let message := VString (err_message error) in
         match err_code error with
         | Some code =>
             if truthy (VString code) then
               sent <- Async.lift (status_of_string code) ;;
               Async.ret {| status := VNumber sent; body := message |}
             else
               Async.ret {| status := VNumber 500; body := message |}
         | None =>
             Async.ret {| status := VNumber 500; body := message |}
         end).

End WithUpstream.
End Index.

(** ** index.js: the /agent route *)

Module AgentRoute.
Section WithUpstream.
Context {P : Platform} (U : Upstream).

(** The route, given the token that
    [crypto.randomBytes(16).toString('hex')] draws for this request. *)
Definition post_agent (uuid : jsstring) (req_body : value)
  : Async.t Index.http_response :=
  message <- Async.lift (get "message" req_body) ;;
  Async.print (console_log [ArgValue message]) ;;;
  if negb (truthy message) then
    Async.ret {| Index.status := VNumber 400;
                 Index.body := VObject
                   [("error", VString (str "Prompt is required"))] |}
  else
    Async.try_catch
      (sanitizedPrompt <-
         Async.lift (on_string "prompt" "trim" message Utils.sanitize) ;;
       response <- Agent.invokeBedrockAgent U sanitizedPrompt uuid ;;
       match response with
       | None => Async.throw (cannot_read "undefined" "completion")
       | Some r =>
           Async.ret {| Index.status := VNumber 200;
                        Index.body := VString (Agent.result_completion r) |}
       end)
      (fun error =>
         Async.print (console_error [ArgError error]) ;;;
         Async.ret {| Index.status := VNumber 500;
                      Index.body := VObject
                        [("error", VString
                            (str "Failed to connect to external API"))] |}).

End WithUpstream.
End AgentRoute.

(** * Vocabulary of the properties *)

(** The invariant the data model words for a session identifier: the
    whole string matches the character class one or more times, and its
    length is between 2 and 100. *)
Definition session_invariant (s : jsstring) : Prop :=
  (s <> [] /\ forallb Utils.is_session_char s = true)
  /\ 2 <= List.length s <= 100.

(** The cleaned form of a prompt: trimmed, lowercased, and without the
    five characters. *)
Definition cleaned {P : Platform} (prompt : jsstring) : jsstring :=
  filter (fun c => negb (Utils.is_special c)) (toLowerCase (trim prompt)).

(** The command that [invokeBedrockAgent] sends. *)
Definition agent_command (U : Upstream) (prompt sessionId : jsstring)
  : InvokeAgentCommandInput :=
  {| agentId := env U "AGENT_ID";
     agentAliasId := env U "AGENT_ALIAS_ID";
     sessionId := sessionId;
     inputText := prompt |}.

(** A stream event that carries a chunk of bytes. *)
Definition chunk_event (b : list N) : ResponseStream :=
  {| chunk := Some {| bytes := Some b |} |}.

(** An agent response whose stream yields the given chunks and ends. *)
Definition streamed (chunks : list (list N)) : InvokeAgentCommandOutput :=
  {| completion := Some {| events := map chunk_event chunks;
                           failure := None |} |}.

(** The world once one more agent command has been sent. *)
Definition agent_called (command : InvokeAgentCommandInput) (w : World)
  : World :=
  {| agent_calls := agent_calls w ++ [command];
     retrieval_calls := retrieval_calls w;
     signer_calls := signer_calls w; console := console w |}.

(** The world once one more entry has been printed. *)
Definition printed (entry : console_entry) (w : World) : World :=
  {| agent_calls := agent_calls w; retrieval_calls := retrieval_calls w;
     signer_calls := signer_calls w; console := console w ++ [entry] |}.

(** The storage location [scheme://bucket/key] with the scheme that
    [parseS3Uri] accepts. *)
Definition s3_uri (bucket key : jsstring) : jsstring :=
  str "s3://" ++ bucket ++ str "/" ++ key.

(** A well-formed location: a non-empty bucket, which ends at the first
    slash, and a non-empty key on one line. *)
Definition well_formed_location (bucket key : jsstring) : Prop :=
  bucket <> []
  /\ forallb (fun c => negb (chr "/" =? c)%N) bucket = true
  /\ key <> []
  /\ existsb is_line_terminator key = false.

(** The URI of a reference, where the citation resolver reads it. *)
Definition reference_uri (reference : value) : value :=
  get_opt "uri" (get_opt "s3Location" (get_opt "location" reference)).

Definition well_formed_reference (reference : value) : Prop :=
  exists bucket key,
    reference_uri reference = VString (s3_uri bucket key)
    /\ well_formed_location bucket key.

(** [enriched] is the original reference plus a [signedUrl] field
    holding [url]: every other property is as in the original. *)
Definition original_plus_signedUrl (reference : value) (url : jsstring)
    (enriched : value) : Prop :=
  exists props,
    enriched = VObject props
    /\ lookup "signedUrl" props = Some (VString url)
    /\ forall k, k <> "signedUrl" -> lookup k props = lookup k (spread reference).

(** What resolving one reference gives, whatever was called before. *)
Definition resolution (U : Upstream) (reference : value) : outcome value :=
  fst (Retrieval.resolveReference U reference empty_world).

(** The world has the same retrieval requests as before. *)
Definition same_requests (w w' : World) : Prop :=
  retrieval_calls w' = retrieval_calls w.

(** The request object that [invokeBedrockRetrieval] sends. *)
Definition retrieval_request (U : Upstream) (prompt : jsstring)
    (sessionId : value) : value :=
  VObject (if truthy sessionId
           then set_prop "sessionId" sessionId (Retrieval.base_input U prompt)
           else Retrieval.base_input U prompt).

(** What resolving all the citations of a response gives. *)
Definition citations_resolution (U : Upstream) (response : value)
  : outcome (list value) :=
  fst (Retrieval.all_citations U response empty_world).

(** What the [catch] block of [invokeBedrockRetrieval] throws for [e]. *)
Definition rethrown (e : js_error) : js_error :=
  if String.eqb (err_name e) "ServiceException" then
    Error (str "AWS Bedrock API error: "
             ++ match err_code e with
                | Some c => c
                | None => str "undefined"
                end
             ++ str " - " ++ err_message e)
  else e.

(** The normalized result the interface words for [POST /retrieve]. *)
Definition normalized (sessionId text : value) (citations : list value)
    (guardrailAction : value) : value :=
  VObject
    [("sessionId", sessionId);
     ("response", VObject
        [("output", VObject [("text", text)]);
         ("citations", VArray citations);
         ("guardrailAction", guardrailAction)])].

(** The reference points at the well-formed location [bk]. *)
Definition located (reference : value) (bk : jsstring * jsstring) : Prop :=
  reference_uri reference = VString (s3_uri (fst bk) (snd bk))
  /\ well_formed_location (fst bk) (snd bk).

(** The storage collaborator issues a non-empty link, valid for 3600
    seconds, for the object of each of these references. *)
Definition signer_issues_links_for (U : Upstream) (refs : list value)
  : Prop :=
  forall reference bk,
    In reference refs -> located reference bk ->
    exists url,
      getSignedUrl U {| Bucket := fst bk; Key := snd bk |} 3600 = Ok url
      /\ url <> [].

(** The signing request the citation resolver makes for a location. *)
Definition signing_request (bk : jsstring * jsstring)
  : GetObjectCommandInput * N :=
  ({| Bucket := fst bk; Key := snd bk |}, 3600%N).

(** Between [w] and [w'] only links that expire after an hour were
    asked for, and nothing was sent to the agent. *)
Definition signed_for_an_hour (w w' : World) : Prop :=
  agent_calls w' = agent_calls w
  /\ exists asked,
       signer_calls w' = signer_calls w ++ asked
       /\ Forall (fun c => snd c = 3600%N) asked.

(** A stream event that carries a payload part. *)
Definition part_event (p : PayloadPart) : ResponseStream :=
  {| chunk := Some p |}.

(** The body of the answer when the prompt is missing, and when the
    /agent route fails. *)
Definition prompt_required : value :=
  VObject [("error", VString (str "Prompt is required"))].

Definition failed_to_connect : value :=
  VObject [("error", VString (str "Failed to connect to external API"))].

(** ** Stub collaborators *)

(** A signer that builds a link from the bucket and the key. *)
Definition stub_getSignedUrl (command : GetObjectCommandInput) (expiresIn : N)
  : outcome jsstring :=
  Ok (str "https://" ++ Bucket command ++ str ".s3.amazonaws.com/"
        ++ Key command ++ str "?X-Amz-Signature=0").

(** An upstream that gives the same answer to every command. *)
Definition stub_upstream (agent : outcome InvokeAgentCommandOutput)
    (retrieval : outcome value) : Upstream :=
  {| env := fun _ => None;
     send_InvokeAgent := fun _ => agent;
     send_RetrieveAndGenerate := fun _ => retrieval;
     getSignedUrl := stub_getSignedUrl |}.

Definition stub_reference (uri : string) : value :=
  VObject [("content", VObject [("text", VString (str "excerpt"))]);
           ("location", VObject
              [("type", VString (str "S3"));
               ("s3Location", VObject [("uri", VString (str uri))])])].

Definition stub_citation (uris : list string) : value :=
  VObject [("generatedResponsePart", VObject []);
           ("retrievedReferences", VArray (map stub_reference uris))].

(** A retrieval response that assigns the session ["s-123"] and answers
    ["answer"] with one citation of two references. *)
Definition stub_response : value :=
  VObject [("sessionId", VString (str "s-123"));
           ("output", VObject [("text", VString (str "answer"))]);
           ("citations", VArray
              [stub_citation ["s3://docs/a.pdf"; "s3://docs/dir/b.pdf"]])].

(** An upstream failure as the SDK reports a throttled call. *)
Definition stub_service_exception : js_error :=
  {| err_name := "ServiceException";
     err_code := Some (str "ThrottlingException");
     err_message := str "Rate exceeded" |}.

(** A retrieval response with an answer and no citations property. *)
Definition stub_response_without_citations : value :=
  VObject [("sessionId", VString (str "s-123"));
           ("output", VObject [("text", VString (str "answer"))])].

(** A retrieval response whose second citation has a malformed
    reference. *)
Definition stub_response_malformed : value :=
  VObject [("sessionId", VString (str "s-123"));
           ("output", VObject [("text", VString (str "answer"))]);
           ("citations", VArray
              [stub_citation ["s3://docs/a.pdf"];
               stub_citation ["s3://docs/b.pdf"; "not-a-uri"]])].

(** A token as [crypto.randomBytes(16).toString('hex')] draws them. *)
Definition stub_uuid : jsstring := str "00112233445566778899aabbccddeeff".

(** A failure of the connection, as Node reports it. *)
Definition stub_network_error : js_error :=
  {| err_name := "Error";
     err_code := Some (str "ECONNREFUSED");
     err_message := str "connect ECONNREFUSED 127.0.0.1:443" |}.

(** The error with which Node's [writeHead] refuses a status. *)
Definition invalid_status_code (code : jsstring) : js_error :=
  {| err_name := "RangeError";
     err_code := Some (str "ERR_HTTP_INVALID_STATUS_CODE");
     err_message := str "Invalid status code: " ++ code |}.

Definition digit_value (c : code_unit) : option Z :=
  if ((48 <=? c) && (c <=? 57))%N then Some (Z.of_N c - 48)%Z else None.

(** A stub HTTP layer: it answers for the codes of three decimal digits
    from 100 to 999 and refuses every other string. *)
Definition stub_status_of_string (code : jsstring) : outcome Z :=
  match map digit_value code with
  | [Some a; Some b; Some c] =>
      if (1 <=? a)%Z then Ok (100 * a + 10 * b + c)%Z
      else Throw (invalid_status_code code)
  | _ => Throw (invalid_status_code code)
  end.

Definition stub_http : HttpLayer :=
  {| status_of_string := stub_status_of_string |}.

(** A reference whose location is any string at all. *)
Definition stub_reference_at (uri : jsstring) : value :=
  VObject [("content", VObject [("text", VString (str "excerpt"))]);
           ("location", VObject
              [("type", VString (str "S3"));
               ("s3Location", VObject [("uri", VString uri)])])].

(** Case analysis on what the [catch] block of the /retrieve route does
    with an error. *)
Ltac handled :=
  repeat match goal with
         | |- context [match err_code ?e with _ => _ end] =>
             destruct (err_code e)
         | |- context [if truthy (VString ?c) then _ else _] =>
             destruct (truthy (VString c))
         | |- context [status_of_string ?c] =>
             destruct (status_of_string c)
         end;
  simpl.


(** * Properties *)

(** ** The sanitizers *)

Section UtilsFacts.
Context {P : Platform}.

Lemma replace_g_empty (p : code_unit -> bool) (s : jsstring) :
  replace_g p (str "") s = filter (fun c => negb (p c)) s.
Proof.
  unfold replace_g.
  induction s as [|c s IH]; simpl; [reflexivity|].
  destruct (p c); simpl; now rewrite IH.
Qed.

Lemma replace_g_absent (p : code_unit -> bool) (r s : jsstring) :
  forallb (fun c => negb (p c)) s = true -> replace_g p r s = s.
Proof.
  unfold replace_g.
  induction s as [|c s IH]; simpl; [reflexivity|].
  intros H. apply andb_prop in H. destruct H as [Hc Hs].
  destruct (p c); [discriminate|]. simpl. now rewrite IH.
Qed.

Lemma forallb_filter_weaken (p q : code_unit -> bool) (s : jsstring) :
  (forall c, p c = true -> q c = true) ->
  forallb q (filter p s) = true.
Proof.
  intros Hpq. apply forallb_forall. intros c Hc.
  apply filter_In in Hc. now apply Hpq.
Qed.

Lemma special_covers (a : code_unit) (c : code_unit) :
  Utils.is_special a = true ->
  negb (Utils.is_special c) = true -> negb (N.eqb a c) = true.
Proof.
  intros Ha Hc. destruct (N.eqb_spec a c) as [->|]; [|reflexivity].
  now rewrite Ha in Hc.
Qed.

(** After the strip, none of the three escapes finds anything. *)
Lemma sanitizedPrompt_is_strip (prompt : jsstring) :
  Utils.sanitizedPrompt prompt
  = filter (fun c => negb (Utils.is_special c)) (toLowerCase (trim prompt)).
Proof.
  unfold Utils.sanitizedPrompt. rewrite replace_g_empty.
  set (t := filter _ _).
  rewrite (replace_g_absent (N.eqb (chr "&")) (str "&amp;") t).
  2:{ apply forallb_filter_weaken. intros c. now apply special_covers. }
  rewrite (replace_g_absent (N.eqb (chr "<")) (str "&lt;") t).
  2:{ apply forallb_filter_weaken. intros c. now apply special_covers. }
  apply replace_g_absent.
  apply forallb_filter_weaken. intros c. now apply special_covers.
Qed.

(** C7: on every input, [sanitize] is trim, then lowercase, then removal
    of the five characters; the three entity escapes that follow change
    nothing, so the pipeline with them and the pipeline without them are
    the same function. *)
Theorem sanitize_escape_is_noop (prompt : jsstring) :
  Utils.sanitize prompt = Utils.sanitize_without_escape prompt.
Proof.
  unfold Utils.sanitize, Utils.sanitize_without_escape.
  now rewrite sanitizedPrompt_is_strip.
Qed.

(** C8: a prompt whose cleaned form is longer than 2048 code units makes
    [sanitize] throw; one whose cleaned form has exactly 2048 is returned
    cleaned. *)
Theorem sanitize_length_limit (prompt : jsstring) :
  (2048 < List.length (cleaned prompt) ->
   Utils.sanitize prompt = Throw (Error (str "Prompt is too long")))
  /\ (List.length (cleaned prompt) = 2048 ->
      Utils.sanitize prompt = Ok (cleaned prompt)).
Proof.
  unfold Utils.sanitize, cleaned. rewrite sanitizedPrompt_is_strip.
  split; intros H.
  - apply Nat.ltb_lt in H. now rewrite H.
  - rewrite H. reflexivity.
Qed.

End UtilsFacts.

(** [sanitize] at the limit and one past it, on the ASCII platform. *)
Lemma sanitize_length_limit_witness :
  @Utils.sanitize ascii_platform (repeat (chr "a") 2049)
  = Throw (Error (str "Prompt is too long"))
  /\ @Utils.sanitize ascii_platform (repeat (chr "A") 2048)
     = Ok (repeat (chr "a") 2048).
Proof.
  split.
  - apply (proj1 (@sanitize_length_limit ascii_platform _)).
    apply Nat.ltb_lt. vm_compute. reflexivity.
  - apply (proj2 (@sanitize_length_limit ascii_platform
                    (repeat (chr "A") 2048))).
    vm_compute. reflexivity.
Defined.

(** C9, as stated, fails: a one-character identifier stays as it is. *)
Lemma sanitizeSessionID_too_short :
  Utils.sanitizeSessionID (str "a") = str "a"
  /\ ~ session_invariant (Utils.sanitizeSessionID (str "a")).
Proof.
  split; [reflexivity|].
  intros [_ [H _]]. vm_compute in H. lia.
Qed.

(** C9, amended: the sanitized session identifier only has characters of
    the class, so it matches the class zero or more times, and it is no
    longer than the input; an identifier already in the class is left
    alone. No length between 2 and 100 is enforced. *)
Theorem sanitizeSessionID_charset (input : jsstring) :
  forallb Utils.is_session_char (Utils.sanitizeSessionID input) = true
  /\ List.length (Utils.sanitizeSessionID input) <= List.length input
  /\ (forallb Utils.is_session_char input = true ->
      Utils.sanitizeSessionID input = input).
Proof.
  unfold Utils.sanitizeSessionID. rewrite replace_g_empty.
  repeat split.
  - apply forallb_forall. intros c Hc. apply filter_In in Hc.
    destruct Hc as [_ Hc]. now apply negb_true_iff, negb_false_iff in Hc.
  - apply filter_length_le.
  - intros H. induction input as [|c s IH]; [reflexivity|].
    simpl in *. apply andb_prop in H. destruct H as [Hc Hs].
    rewrite Hc. simpl. now rewrite IH.
Qed.

(** ** The agent client *)

Section AgentFacts.
Context {P : Platform} (U : Upstream).

(** The loop appends the decoded chunks to what it has, in order. *)
Lemma consume_chunks (chunks : list (list N)) :
  forall (completion : jsstring) (w : World),
    fst (Agent.consume (map chunk_event chunks) completion w)
    = Ok (completion ++ List.concat (map utf8_decode chunks)).
Proof.
  induction chunks as [|b chunks IH]; intros completion w; simpl.
  - now rewrite app_nil_r.
  - unfold Async.bind, Async.print. simpl.
    rewrite IH. now rewrite app_assoc.
Qed.

(** C6: when the upstream stream yields a finite sequence of chunks and
    ends, [invokeBedrockAgent] returns the session identifier it was
    given and, as completion, the decoded texts of the chunks
    concatenated in arrival order. *)
Theorem invokeBedrockAgent_concatenates
    (prompt sessionId : jsstring) (chunks : list (list N)) (w : World) :
  send_InvokeAgent U (agent_command U prompt sessionId)
    = Ok (streamed chunks) ->
  fst (Agent.invokeBedrockAgent U prompt sessionId w)
  = Ok (Some {| Agent.result_sessionId := sessionId;
                Agent.result_completion :=
                  List.concat (map utf8_decode chunks) |}).
Proof.
  intros Hsend.
  unfold Agent.invokeBedrockAgent, Async.try_catch, Async.bind,
    Agent.client_send.
  fold (agent_command U prompt sessionId). rewrite Hsend. simpl.
  unfold Agent.for_await, Async.bind. simpl.
  pose proof (consume_chunks chunks (str "")
                (agent_called (agent_command U prompt sessionId) w)) as Hc.
  unfold agent_called in Hc.
  destruct (Agent.consume _ _ _) as [o w'].
  simpl in Hc. subst o. reflexivity.
Qed.

(** C3, on the code: when the response has no completion stream, the
    error is built and thrown inside the [try] block, printed by the
    [catch] block, and the call returns [undefined]. *)
Theorem invokeBedrockAgent_swallows_missing_completion
    (prompt sessionId : jsstring) (w : World) :
  send_InvokeAgent U (agent_command U prompt sessionId)
    = Ok {| completion := None |} ->
  Agent.invokeBedrockAgent U prompt sessionId w
  = (Ok None,
     printed (console_error [ArgError (Error (str "Completion is undefined"))])
       (agent_called (agent_command U prompt sessionId) w)).
Proof.
  intros Hsend.
  unfold Agent.invokeBedrockAgent, Async.try_catch, Async.bind,
    Agent.client_send.
  fold (agent_command U prompt sessionId). rewrite Hsend. reflexivity.
Qed.

End AgentFacts.

(** [invokeAgent("hello", "abc")] against a stub upstream that streams
    the chunks ["He"] and ["llo"]. *)
Lemma invokeBedrockAgent_concatenates_witness :
  fst (@Agent.invokeBedrockAgent ascii_platform
         (stub_upstream (Ok (streamed [str "He"; str "llo"]))
                        (Throw (Error (str "unused"))))
         (str "hello") (str "abc") empty_world)
  = Ok (Some {| Agent.result_sessionId := str "abc";
                Agent.result_completion := str "Hello" |}).
Proof.
  apply (@invokeBedrockAgent_concatenates ascii_platform
           (stub_upstream (Ok (streamed [str "He"; str "llo"]))
                          (Throw (Error (str "unused"))))
           (str "hello") (str "abc") [str "He"; str "llo"] empty_world).
  reflexivity.
Defined.

(** [invokeAgent("hello", "abc")] against a stub upstream whose response
    has no completion stream. *)
Lemma invokeBedrockAgent_swallows_missing_completion_witness :
  @Agent.invokeBedrockAgent ascii_platform
     (stub_upstream (Ok {| completion := None |})
                    (Throw (Error (str "unused"))))
     (str "hello") (str "abc") empty_world
  = (Ok None,
     {| agent_calls :=
          [{| agentId := None; agentAliasId := None;
              sessionId := str "abc"; inputText := str "hello" |}];
        retrieval_calls := []; signer_calls := [];
        console :=
          [console_error
             [ArgError (Error (str "Completion is undefined"))]] |}).
Proof.
  apply (@invokeBedrockAgent_swallows_missing_completion ascii_platform
           (stub_upstream (Ok {| completion := None |})
                          (Throw (Error (str "unused"))))
           (str "hello") (str "abc") empty_world).
  reflexivity.
Defined.

(** ** Values and promises *)

Lemma get_total (k : string) (v : value) :
  (exists e, get k v = Throw e) \/ get k v = Ok (get_opt k v).
Proof.
  destruct v; simpl; eauto.
Qed.

Lemma get_opt_get (k : string) (v : value) (s : jsstring) :
  get_opt k v = VString s -> get k v = Ok (VString s).
Proof.
  destruct v; simpl; try discriminate. now intros ->.
Qed.

Lemma get_opt_object (k : string) (v x : value) :
  get_opt k v = x -> x <> VUndefined ->
  exists props, v = VObject props /\ get k v = Ok x.
Proof.
  destruct v; simpl; intros <- H; try congruence. eauto.
Qed.

Lemma lookup_set_prop_same (k : string) (v : value) props :
  lookup k (set_prop k v props) = Some v.
Proof.
  induction props as [|[k' v'] props IH]; simpl.
  - now rewrite String.eqb_refl.
  - destruct (String.eqb k k') eqn:E; simpl.
    + now rewrite String.eqb_refl.
    + now rewrite E.
Qed.

Lemma lookup_set_prop_other (k k0 : string) (v : value) props :
  k0 <> k -> lookup k0 (set_prop k v props) = lookup k0 props.
Proof.
  intros Hne. apply String.eqb_neq in Hne.
  induction props as [|[k' v'] props IH]; simpl.
  - now rewrite Hne.
  - destruct (String.eqb k k') eqn:E; simpl.
    + apply String.eqb_eq in E. subst k'. now rewrite Hne.
    + now rewrite IH.
Qed.

Lemma collect_rejects {A} (os : list (outcome A)) (e : js_error) :
  In (Throw e) os -> exists e', Async.collect os = Throw e'.
Proof.
  induction os as [|o os IH]; simpl; [tauto|].
  intros [->|Hin]; [eauto|].
  destruct o as [a|e0]; [|eauto].
  destruct (IH Hin) as [e' ->]. eauto.
Qed.

Lemma collect_fulfils {A} (os : list (outcome A)) (l : list A) :
  Forall2 (fun o a => o = Ok a) os l -> Async.collect os = Ok l.
Proof.
  induction 1 as [|o a os l -> _ IH]; simpl; [reflexivity|].
  now rewrite IH.
Qed.

(** When the outcome of a callback does not depend on the calls made
    before it, the outcomes of all the callbacks are those of each. *)
Lemma start_all_outcomes {A B} (f : A -> Async.t B) (g : A -> outcome B)
    (xs : list A) :
  (forall x w, In x xs -> fst (f x w) = g x) ->
  forall w, fst (Async.start_all f xs w) = map g xs.
Proof.
  induction xs as [|x xs IH]; intros Hf w; simpl; [reflexivity|].
  pose proof (Hf x w (or_introl eq_refl)) as Hx.
  destruct (f x w) as [o w1]. simpl in Hx. subst o.
  specialize (IH (fun y w' Hy => Hf y w' (or_intror Hy)) w1).
  destruct (Async.start_all f xs w1) as [os w2]. simpl in *.
  now rewrite IH.
Qed.

Lemma Promise_all_map_outcome {A B} (f : A -> Async.t B) (g : A -> outcome B)
    (xs : list A) (w : World) :
  (forall x w, In x xs -> fst (f x w) = g x) ->
  fst (Async.Promise_all_map f xs w) = Async.collect (map g xs).
Proof.
  intros Hf. unfold Async.Promise_all_map.
  pose proof (start_all_outcomes f g xs Hf w) as H.
  destruct (Async.start_all f xs w) as [os w']. simpl in *. now subst os.
Qed.

(** A property of the world that every callback keeps is kept by
    starting them all. *)
Lemma start_all_keeps {A B} (I : World -> World -> Prop)
    (f : A -> Async.t B) (xs : list A) :
  (forall w, I w w) ->
  (forall w1 w2 w3, I w1 w2 -> I w2 w3 -> I w1 w3) ->
  (forall x w, I w (snd (f x w))) ->
  forall w, I w (snd (Async.start_all f xs w)).
Proof.
  intros Hrefl Htrans Hf.
  induction xs as [|x xs IH]; intros w; simpl; [apply Hrefl|].
  pose proof (Hf x w) as Hx. destruct (f x w) as [o w1]. simpl in Hx.
  specialize (IH w1). destruct (Async.start_all f xs w1) as [os w2].
  simpl in *. eauto.
Qed.

(** ** The citation resolver *)

Lemma strip_prefix_app (p s : jsstring) :
  strip_prefix p (p ++ s) = Some s.
Proof.
  induction p as [|a p IH]; simpl; [reflexivity|].
  now rewrite N.eqb_refl.
Qed.

Lemma strip_prefix_inv (p s rest : jsstring) :
  strip_prefix p s = Some rest -> s = p ++ rest.
Proof.
  revert s. induction p as [|a p IH]; intros s; simpl.
  - now intros [= ->].
  - destruct s as [|b s]; [discriminate|].
    destruct (N.eqb_spec a b) as [->|]; [|discriminate].
    intros H. now rewrite (IH _ H).
Qed.

Lemma break_at_app (p : code_unit -> bool) (a b : jsstring) (c : code_unit) :
  forallb (fun x => negb (p x)) a = true -> p c = true ->
  break_at p (a ++ c :: b) = (a, Some b).
Proof.
  intros Ha Hc. induction a as [|x a IH]; simpl.
  - now rewrite Hc.
  - simpl in Ha. apply andb_prop in Ha. destruct Ha as [Hx Ha].
    apply negb_true_iff in Hx. rewrite Hx. now rewrite (IH Ha).
Qed.

Lemma break_at_inv (p : code_unit -> bool) (s a b : jsstring) :
  break_at p s = (a, Some b) ->
  exists c, s = a ++ c :: b /\ p c = true
            /\ forallb (fun x => negb (p x)) a = true.
Proof.
  revert a. induction s as [|x s IH]; intros a; simpl; [discriminate|].
  destruct (p x) eqn:Hx.
  - intros [= <- <-]. exists x. auto.
  - destruct (break_at p s) as [a' b'] eqn:E. intros [= <- ->].
    destruct (IH a' eq_refl) as (c & -> & Hc & Ha).
    exists c. simpl. rewrite Hx. auto.
Qed.

(** [parseS3Uri] accepts every well-formed location and gives back its
    bucket and key. *)
Lemma parseS3Uri_well_formed (bucket key : jsstring) :
  well_formed_location bucket key ->
  Retrieval.parseS3Uri (VString (s3_uri bucket key)) = Ok (bucket, key).
Proof.
  intros (Hb & Hslash & Hk & Hline).
  unfold Retrieval.parseS3Uri, Retrieval.match_s3, s3_uri.
  rewrite strip_prefix_app.
  change (str "/" ++ key) with (chr "/" :: key).
  rewrite (@break_at_app (N.eqb (chr "/")) bucket key (chr "/") Hslash
             (N.eqb_refl _)).
  destruct bucket as [|b bucket]; [congruence|].
  rewrite Hline. destruct key; [congruence|reflexivity].
Qed.

(** ... and nothing else. *)
Lemma match_s3_inv (s bucket key : jsstring) :
  Retrieval.match_s3 s = Some (bucket, key) ->
  s = s3_uri bucket key
  /\ bucket <> []
  /\ forallb (fun c => negb (chr "/" =? c)%N) bucket = true
  /\ existsb is_line_terminator key = false.
Proof.
  unfold Retrieval.match_s3.
  destruct (strip_prefix (str "s3://") s) as [rest|] eqn:Hp; [|discriminate].
  apply strip_prefix_inv in Hp.
  destruct (break_at (N.eqb (chr "/")) rest) as [b [k|]] eqn:Hb.
  - apply break_at_inv in Hb. destruct Hb as (c & -> & Hc & Hslash).
    apply N.eqb_eq in Hc. subst c.
    destruct b as [|b0 b]; [discriminate|].
    destruct (existsb is_line_terminator k) eqn:Hline; [discriminate|].
    intros [= <- <-]. subst s. unfold s3_uri.
    repeat split; try assumption; discriminate.
  - destruct b; discriminate.
Qed.

Lemma parseS3Uri_only_well_formed (uri : value) (bucket key : jsstring) :
  Retrieval.parseS3Uri uri = Ok (bucket, key) ->
  uri = VString (s3_uri bucket key) /\ well_formed_location bucket key.
Proof.
  unfold Retrieval.parseS3Uri.
  destruct uri as [| | | |s| |]; try discriminate.
  destruct (Retrieval.match_s3 s) as [[b k]|] eqn:Hm; [|discriminate].
  apply match_s3_inv in Hm. destruct Hm as (-> & Hb & Hslash & Hline).
  destruct b as [|b0 b]; [discriminate|].
  destruct k as [|k0 k]; [discriminate|].
  intros [= <- <-]. unfold well_formed_location.
  repeat split; try assumption; discriminate.
Qed.

(** The strings that the reference parser refuses: no scheme, an empty
    bucket, an empty key, a key over two lines, and a value that is not
    a string. *)
Lemma parseS3Uri_refuses :
  Retrieval.parseS3Uri (VString (str "not-a-uri"))
    = Throw (Error (str "Invalid S3 URI: not-a-uri"))
  /\ Retrieval.parseS3Uri (VString (str "s3:///key"))
     = Throw (Error (str "Invalid S3 URI: s3:///key"))
  /\ Retrieval.parseS3Uri (VString (str "s3://bucket/"))
     = Throw (Error (str "Invalid S3 URI: s3://bucket/"))
  /\ Retrieval.parseS3Uri (VString (str "s3://bucket"))
     = Throw (Error (str "Invalid S3 URI: s3://bucket"))
  /\ (exists e, Retrieval.parseS3Uri
                  (VString (str "s3://bucket/a" ++ [10%N] ++ str "b"))
                = Throw e)
  /\ Retrieval.parseS3Uri VUndefined
     = Throw (Error (str "Input must be a string: undefined")).
Proof.
  repeat split; try reflexivity. eexists. reflexivity.
Qed.

Section CitationFacts.
Variable U : Upstream.

Lemma resolveReference_outcome (reference : value) (w : World) :
  fst (Retrieval.resolveReference U reference w) = resolution U reference.
Proof.
  unfold resolution, Retrieval.resolveReference, Async.bind, Async.lift,
    Retrieval.s3_getSignedUrl, Async.ret.
  destruct (get "location" reference) as [l|]; [|reflexivity].
  destruct (get "s3Location" l) as [s|]; [|reflexivity].
  destruct (get "uri" s) as [u|]; [|reflexivity].
  destruct (Retrieval.parseS3Uri u) as [[b k]|]; [|reflexivity].
  simpl. destruct (getSignedUrl U _ _); reflexivity.
Qed.

(** The callback without its trace. *)
Lemma resolution_unfold (reference : value) :
  resolution U reference
  = match get "location" reference with
    | Throw e => Throw e
    | Ok location =>
    match get "s3Location" location with
    | Throw e => Throw e
    | Ok s3Location =>
    match get "uri" s3Location with
    | Throw e => Throw e
    | Ok uri =>
    match Retrieval.parseS3Uri uri with
    | Throw e => Throw e
    | Ok (bucket, key) =>
    match getSignedUrl U {| Bucket := bucket; Key := key |} 3600 with
    | Throw e => Throw e
    | Ok signedUrl =>
        Ok (VObject (set_prop "signedUrl" (VString signedUrl)
                       (spread reference)))
    end end end end end.
Proof.
  unfold resolution, Retrieval.resolveReference, Async.bind, Async.lift,
    Retrieval.s3_getSignedUrl, Async.ret.
  destruct (get "location" reference) as [l|]; [|reflexivity].
  destruct (get "s3Location" l) as [s|]; [|reflexivity].
  destruct (get "uri" s) as [u|]; [|reflexivity].
  destruct (Retrieval.parseS3Uri u) as [[b k]|]; [|reflexivity].
  simpl. destruct (getSignedUrl U _ _); reflexivity.
Qed.

Lemma resolution_well_formed (reference : value) (bucket key url : jsstring) :
  reference_uri reference = VString (s3_uri bucket key) ->
  well_formed_location bucket key ->
  getSignedUrl U {| Bucket := bucket; Key := key |} 3600 = Ok url ->
  resolution U reference
  = Ok (VObject (set_prop "signedUrl" (VString url) (spread reference))).
Proof.
  intros Huri Hwf Hsign.
  unfold reference_uri in Huri.
  destruct (get_opt_object _ _ Huri) as (p3 & E3 & G3); [discriminate|].
  destruct (get_opt_object _ _ E3) as (p2 & E2 & G2); [discriminate|].
  destruct (get_opt_object _ _ E2) as (p1 & E1 & G1); [discriminate|].
  rewrite E2 in G2. rewrite E3 in G3.
  rewrite resolution_unfold, G1, G2, G3, (parseS3Uri_well_formed Hwf).
  now rewrite Hsign.
Qed.

(** A reference that is not well formed does not resolve. *)
Lemma resolution_malformed (reference : value) :
  ~ well_formed_reference reference ->
  exists e, resolution U reference = Throw e.
Proof.
  intros Hnwf. rewrite resolution_unfold.
  destruct (get_total "location" reference) as [[e1 ->] | ->]; [eauto|].
  destruct (get_total "s3Location" (get_opt "location" reference))
    as [[e2 ->] | ->]; [eauto|].
  destruct (get_total "uri"
              (get_opt "s3Location" (get_opt "location" reference)))
    as [[e3 ->] | ->]; [eauto|].
  fold (reference_uri reference).
  destruct (Retrieval.parseS3Uri (reference_uri reference))
    as [[b k]|e] eqn:Hp; [|eauto].
  exfalso. apply Hnwf. exists b, k.
  now apply parseS3Uri_only_well_formed.
Qed.

Lemma parseCitation_outcome (citation : value) (refs : list value)
    (w : World) :
  get_opt "retrievedReferences" citation = VArray refs ->
  fst (Retrieval.parseCitation U citation w)
  = match Async.collect (map (resolution U) refs) with
    | Ok retrievedReferences =>
        Ok (VObject [("metadata", get_opt "metadata" citation);
                     ("retrievedReferences", VArray retrievedReferences)])
    | Throw e => Throw e
    end.
Proof.
  intros Hrefs.
  destruct (get_opt_object _ _ Hrefs) as (props & -> & Hget);
    [discriminate|].
  unfold Retrieval.parseCitation, Async.bind, Async.lift.
  rewrite Hget. unfold Retrieval.map_all.
  pose proof (Promise_all_map_outcome (Retrieval.resolveReference U)
                (resolution U) refs w
                (fun x w' _ => resolveReference_outcome x w')) as H.
  destruct (Async.Promise_all_map _ refs w) as [o w'].
  simpl in H. subst o.
  destruct (Async.collect (map (resolution U) refs)); reflexivity.
Qed.

(** C4: when one reference of a citation does not resolve, because it
    is malformed or for any other reason, [parseCitation] throws and
    gives no reference list at all. *)
Theorem parseCitation_fails_fast (citation : value) (refs : list value)
    (reference : value) (w : World) :
  get_opt "retrievedReferences" citation = VArray refs ->
  In reference refs ->
  ~ well_formed_reference reference
  \/ (exists e, resolution U reference = Throw e) ->
  exists e, fst (Retrieval.parseCitation U citation w) = Throw e.
Proof.
  intros Hrefs Hin Hfail.
  assert (exists e, resolution U reference = Throw e) as [e He].
  { destruct Hfail as [Hm|He]; [now apply resolution_malformed|exact He]. }
  rewrite (parseCitation_outcome citation w Hrefs).
  destruct (@collect_rejects _ (map (resolution U) refs) e) as [e' ->]; [|eauto].
  rewrite <- He. now apply in_map.
Qed.

(** C5, amended: a citation of [n] references at well-formed locations
    (a non-empty bucket without slash, a non-empty key without line
    terminator), with a storage collaborator that issues a non-empty
    link for each of these objects, resolves to [n] references in the
    same order, each the original plus a [signedUrl] that is the link
    issued for the bucket and key of that very reference. *)
Theorem parseCitation_enriches (citation : value) (refs : list value)
    (w : World) :
  get_opt "retrievedReferences" citation = VArray refs ->
  Forall well_formed_reference refs ->
  signer_issues_links_for U refs ->
  exists enriched,
    fst (Retrieval.parseCitation U citation w)
    = Ok (VObject [("metadata", get_opt "metadata" citation);
                   ("retrievedReferences", VArray enriched)])
    /\ List.length enriched = List.length refs
    /\ Forall2
         (fun reference e =>
            exists bk url,
              located reference bk
              /\ getSignedUrl U {| Bucket := fst bk; Key := snd bk |} 3600
                 = Ok url
              /\ url <> []
              /\ original_plus_signedUrl reference url e)
         refs enriched.
Proof.
  intros Hrefs Hwf Hsigner.
  rewrite (parseCitation_outcome citation w Hrefs). clear Hrefs.
  induction Hwf as [|r refs (bucket & key & Huri & Hloc) _ IH]; simpl.
  - exists []. repeat split; constructor.
  - destruct IH as (enriched & Hout & Hlen & Hall).
    { intros r' bk Hin. apply Hsigner. now right. }
    assert (located r (bucket, key)) as Hl by (split; assumption).
    destruct (Hsigner r (bucket, key) (or_introl eq_refl) Hl)
      as (url & Hsign & Hurl).
    simpl in Hsign.
    rewrite (resolution_well_formed r Huri Hloc Hsign).
    destruct (Async.collect (map (resolution U) refs)) as [l|]; [|discriminate].
    injection Hout as <-.
    eexists. split; [reflexivity|]. split; [simpl; now rewrite Hlen|].
    constructor; [|exact Hall].
    exists (bucket, key), url. split; [exact Hl|].
    split; [exact Hsign|]. split; [exact Hurl|].
    eexists. split; [reflexivity|]. split.
    + apply lookup_set_prop_same.
    + intros k Hk. now apply lookup_set_prop_other.
Qed.

End CitationFacts.

(** The citation with a malformed reference among well-formed ones. *)
Lemma parseCitation_fails_fast_witness :
  exists e,
    fst (Retrieval.parseCitation
           (stub_upstream (Throw (Error (str "unused")))
                          (Throw (Error (str "unused"))))
           (stub_citation ["s3://docs/a.pdf"; "not-a-uri"; "s3://docs/c.pdf"])
           empty_world)
    = Throw e.
Proof.
  apply (@parseCitation_fails_fast
           (stub_upstream (Throw (Error (str "unused")))
                          (Throw (Error (str "unused"))))
           (stub_citation ["s3://docs/a.pdf"; "not-a-uri"; "s3://docs/c.pdf"])
           (map stub_reference
              ["s3://docs/a.pdf"; "not-a-uri"; "s3://docs/c.pdf"])
           (stub_reference "not-a-uri") empty_world).
  - reflexivity.
  - simpl. tauto.
  - left. intros (bucket & key & Huri & _).
    vm_compute in Huri. discriminate.
Defined.

(** Three well-formed references in, three enriched references out,
    each with the link for its own object. *)
Lemma parseCitation_enriches_witness :
  exists enriched,
    fst (Retrieval.parseCitation
           (stub_upstream (Throw (Error (str "unused")))
                          (Throw (Error (str "unused"))))
           (stub_citation
              ["s3://docs/a.pdf"; "s3://docs/dir/b.pdf"; "s3://other/c"])
           empty_world)
    = Ok (VObject [("metadata", VUndefined);
                   ("retrievedReferences", VArray enriched)])
    /\ List.length enriched = 3
    /\ Forall2
         (fun reference e =>
            exists bk url,
              located reference bk
              /\ stub_getSignedUrl {| Bucket := fst bk; Key := snd bk |} 3600
                 = Ok url
              /\ url <> []
              /\ original_plus_signedUrl reference url e)
         (map stub_reference
            ["s3://docs/a.pdf"; "s3://docs/dir/b.pdf"; "s3://other/c"])
         enriched.
Proof.
  apply (@parseCitation_enriches
           (stub_upstream (Throw (Error (str "unused")))
                          (Throw (Error (str "unused"))))
           (stub_citation
              ["s3://docs/a.pdf"; "s3://docs/dir/b.pdf"; "s3://other/c"])
           (map stub_reference
              ["s3://docs/a.pdf"; "s3://docs/dir/b.pdf"; "s3://other/c"])
           empty_world).
  - reflexivity.
  - repeat constructor.
    + exists (str "docs"), (str "a.pdf").
      split; [reflexivity|]. repeat split; discriminate.
    + exists (str "docs"), (str "dir/b.pdf").
      split; [reflexivity|]. repeat split; discriminate.
    + exists (str "other"), (str "c").
      split; [reflexivity|]. repeat split; discriminate.
  - intros reference bk _ _. eexists. split; [reflexivity|]. discriminate.
Defined.

(** C5, as stated, fails: a reference at [s3://bucket/key] with a
    non-empty bucket and a non-empty key that holds a line feed, and a
    collaborator that issues links, yet [parseCitation] throws. *)
Lemma parseCitation_refuses_key_with_line_feed :
  str "bucket" <> []
  /\ str "a" ++ [10%N] ++ str "b" <> []
  /\ (forall command, exists url,
        stub_getSignedUrl command 3600 = Ok url /\ url <> [])
  /\ fst (Retrieval.parseCitation
            (stub_upstream (Throw (Error (str "unused")))
                           (Throw (Error (str "unused"))))
            (VObject
               [("retrievedReferences", VArray
                   [stub_reference_at
                      (s3_uri (str "bucket")
                         (str "a" ++ [10%N] ++ str "b"))])])
            empty_world)
     = Throw (Error (str "Invalid S3 URI: s3://bucket/a" ++ [10%N]
                       ++ str "b")).
Proof.
  split; [discriminate|]. split; [discriminate|]. split.
  - intros command. eexists. split; [reflexivity|]. discriminate.
  - reflexivity.
Qed.

(** ** The retrieval client *)

Section RetrievalFacts.
Variable U : Upstream.

Lemma resolveReference_same_requests (reference : value) (w : World) :
  same_requests w (snd (Retrieval.resolveReference U reference w)).
Proof.
  unfold same_requests, Retrieval.resolveReference, Async.bind, Async.lift,
    Retrieval.s3_getSignedUrl, Async.ret.
  destruct (get "location" reference) as [l|]; [|reflexivity].
  destruct (get "s3Location" l) as [s|]; [|reflexivity].
  destruct (get "uri" s) as [u|]; [|reflexivity].
  destruct (Retrieval.parseS3Uri u) as [[b k]|]; [|reflexivity].
  simpl. destruct (getSignedUrl U _ _); reflexivity.
Qed.

Lemma Promise_all_map_same_requests {A B} (f : A -> Async.t B)
    (xs : list A) (w : World) :
  (forall x w, same_requests w (snd (f x w))) ->
  same_requests w (snd (Async.Promise_all_map f xs w)).
Proof.
  intros Hf. unfold Async.Promise_all_map.
  pose proof (@start_all_keeps _ _ same_requests f xs) as H.
  specialize (H (fun _ => eq_refl)).
  specialize (H (fun w1 w2 w3 H12 H23 => eq_trans H23 H12) Hf w).
  now destruct (Async.start_all f xs w).
Qed.

Lemma parseCitation_same_requests (citation : value) (w : World) :
  same_requests w (snd (Retrieval.parseCitation U citation w)).
Proof.
  unfold Retrieval.parseCitation, Async.bind, Async.lift.
  destruct (get "retrievedReferences" citation) as [refs|]; [|reflexivity].
  unfold Retrieval.map_all.
  destruct refs as [| | | | |l|]; try reflexivity.
  pose proof (@Promise_all_map_same_requests _ _
                (Retrieval.resolveReference U) l w
                resolveReference_same_requests) as H.
  destruct (Async.Promise_all_map _ l w) as [[o|e] w']; exact H.
Qed.

Lemma all_citations_same_requests (response : value) (w : World) :
  same_requests w (snd (Retrieval.all_citations U response w)).
Proof.
  unfold Retrieval.all_citations.
  destruct (get_opt "citations" response) as [| | | | |l|]; try reflexivity.
  now apply Promise_all_map_same_requests, parseCitation_same_requests.
Qed.

Lemma parseCitation_outcome_any (citation : value) (w : World) :
  fst (Retrieval.parseCitation U citation w)
  = fst (Retrieval.parseCitation U citation empty_world).
Proof.
  unfold Retrieval.parseCitation, Async.bind, Async.lift.
  destruct (get "retrievedReferences" citation) as [refs|]; [|reflexivity].
  unfold Retrieval.map_all.
  destruct refs as [| | | | |l|]; try reflexivity.
  pose proof (fun w => Promise_all_map_outcome (Retrieval.resolveReference U)
                (resolution U) l w
                (fun x w' _ => resolveReference_outcome U x w')) as H.
  pose proof (H w) as H1. pose proof (H empty_world) as H2.
  destruct (Async.Promise_all_map _ l w) as [o1 w1].
  destruct (Async.Promise_all_map _ l empty_world) as [o2 w2].
  simpl in *. subst o1 o2.
  destruct (Async.collect (map (resolution U) l)); reflexivity.
Qed.

Lemma all_citations_outcome (response : value) (w : World) :
  fst (Retrieval.all_citations U response w) = citations_resolution U response.
Proof.
  unfold citations_resolution, Retrieval.all_citations.
  destruct (get_opt "citations" response) as [| | | | |l|]; try reflexivity.
  rewrite !(Promise_all_map_outcome (Retrieval.parseCitation U)
              (fun c => fst (Retrieval.parseCitation U c empty_world)) l).
  - reflexivity.
  - intros x w' _. apply parseCitation_outcome_any.
  - intros x w' _. apply parseCitation_outcome_any.
Qed.

(** The outcome of [invokeBedrockRetrieval], without its trace. *)
Lemma invokeBedrockRetrieval_outcome (prompt : jsstring) (sessionId : value)
    (w : World) :
  fst (Retrieval.invokeBedrockRetrieval U prompt sessionId w)
  = match send_RetrieveAndGenerate U
            (retrieval_request U prompt sessionId) with
    | Throw e => Throw (rethrown e)
    | Ok response =>
        match citations_resolution U response with
        | Throw e => Throw (rethrown e)
        | Ok citations =>
            Ok (VObject
                  [("sessionId", sessionId);
                   ("response",
                    normalized (get_opt "sessionId" response)
                      (get_opt "text" (get_opt "output" response))
                      citations
                      (get_opt "guardrailAction" response))])
        end
    end.
Proof.
  unfold Retrieval.invokeBedrockRetrieval, Async.try_catch, Async.bind,
    Retrieval.client_send.
  fold (retrieval_request U prompt sessionId).
  destruct (send_RetrieveAndGenerate U _) as [response|e].
  - match goal with
    | |- context [Retrieval.all_citations U response ?w1] =>
        pose proof (all_citations_outcome response w1) as H;
        destruct (Retrieval.all_citations U response w1) as [o w2]
    end.
    simpl in H. subst o.
    destruct (citations_resolution U response) as [cits|e]; [reflexivity|].
    unfold rethrown.
    destruct (String.eqb (err_name e) "ServiceException"); reflexivity.
  - unfold rethrown.
    destruct (String.eqb (err_name e) "ServiceException"); reflexivity.
Qed.

(** Whatever the outcome, exactly one request has gone upstream. *)
Lemma invokeBedrockRetrieval_request (prompt : jsstring) (sessionId : value)
    (w : World) :
  retrieval_calls (snd (Retrieval.invokeBedrockRetrieval U prompt sessionId w))
  = retrieval_calls w ++ [retrieval_request U prompt sessionId].
Proof.
  unfold Retrieval.invokeBedrockRetrieval, Async.try_catch, Async.bind,
    Retrieval.client_send.
  fold (retrieval_request U prompt sessionId).
  destruct (send_RetrieveAndGenerate U _) as [response|e].
  - match goal with
    | |- context [Retrieval.all_citations U response ?w1] =>
        pose proof (all_citations_same_requests response w1) as H;
        destruct (Retrieval.all_citations U response w1) as [[cits|e] w2]
    end; unfold same_requests in H; simpl in H.
    + simpl. exact H.
    + destruct (String.eqb (err_name e) "ServiceException"); simpl; exact H.
  - destruct (String.eqb (err_name e) "ServiceException"); reflexivity.
Qed.

(** C2, amended: on success the value returned wraps the normalized
    result once more: its [sessionId] is the caller's argument and its
    [response] is the normalized result, which holds the upstream's
    session identifier and, under its own [response], the output text,
    the resolved citations and the guardrail action. The upstream's
    output text is at [response.response.output.text]. *)
Theorem invokeBedrockRetrieval_shape (prompt : jsstring) (sessionId : value)
    (response : value) (citations : list value) (w : World) :
  send_RetrieveAndGenerate U (retrieval_request U prompt sessionId)
    = Ok response ->
  citations_resolution U response = Ok citations ->
  exists result,
    fst (Retrieval.invokeBedrockRetrieval U prompt sessionId w) = Ok result
    /\ result
       = VObject
           [("sessionId", sessionId);
            ("response",
             normalized (get_opt "sessionId" response)
               (get_opt "text" (get_opt "output" response))
               citations
               (get_opt "guardrailAction" response))]
    /\ get_opt "text"
         (get_opt "output" (get_opt "response" (get_opt "response" result)))
       = get_opt "text" (get_opt "output" response).
Proof.
  intros Hsend Hcits. eexists. split; [|split; [reflexivity|]].
  - now rewrite invokeBedrockRetrieval_outcome, Hsend, Hcits.
  - reflexivity.
Qed.

(** C1, amended: without a session identifier from the caller, the
    request sent upstream has no [sessionId]; on success the identifier
    that the upstream assigned is returned as [response.sessionId] of the
    result, while the result's own [sessionId] is the caller's argument,
    [undefined]. *)
Theorem invokeBedrockRetrieval_session (prompt : jsstring)
    (response : value) (citations : list value) (w : World) :
  send_RetrieveAndGenerate U (retrieval_request U prompt VUndefined)
    = Ok response ->
  citations_resolution U response = Ok citations ->
  exists request result,
    retrieval_calls
      (snd (Retrieval.invokeBedrockRetrieval U prompt VUndefined w))
    = retrieval_calls w ++ [VObject request]
    /\ lookup "sessionId" request = None
    /\ get_opt "text" (get_own "input" request) = VString prompt
    /\ fst (Retrieval.invokeBedrockRetrieval U prompt VUndefined w)
       = Ok result
    /\ get_opt "sessionId" (get_opt "response" result)
       = get_opt "sessionId" response
    /\ get_opt "sessionId" result = VUndefined.
Proof.
  intros Hsend Hcits.
  exists (Retrieval.base_input U prompt). eexists.
  split; [apply (invokeBedrockRetrieval_request prompt VUndefined)|].
  split; [reflexivity|]. split; [reflexivity|].
  split; [now rewrite invokeBedrockRetrieval_outcome, Hsend, Hcits|].
  split; reflexivity.
Qed.

End RetrievalFacts.

(** [invokeRetrieval("what is x?", undefined)] against the stub. *)
Lemma invokeBedrockRetrieval_session_witness :
  exists request result,
    retrieval_calls
      (snd (Retrieval.invokeBedrockRetrieval
              (stub_upstream (Throw (Error (str "unused")))
                             (Ok stub_response))
              (str "what is x?") VUndefined empty_world))
    = [] ++ [VObject request]
    /\ lookup "sessionId" request = None
    /\ get_opt "text" (get_own "input" request)
       = VString (str "what is x?")
    /\ fst (Retrieval.invokeBedrockRetrieval
              (stub_upstream (Throw (Error (str "unused")))
                             (Ok stub_response))
              (str "what is x?") VUndefined empty_world)
       = Ok result
    /\ get_opt "sessionId" (get_opt "response" result)
       = VString (str "s-123")
    /\ get_opt "sessionId" result = VUndefined.
Proof.
  eapply (@invokeBedrockRetrieval_session
            (stub_upstream (Throw (Error (str "unused")))
                           (Ok stub_response))
            (str "what is x?") stub_response _ empty_world).
  - reflexivity.
  - vm_compute. reflexivity.
Defined.

(** C1, as stated, fails: the upstream assigns ["s-123"], and the
    [sessionId] field of the result is [undefined]. *)
Lemma invokeBedrockRetrieval_session_not_returned :
  exists result,
    fst (Retrieval.invokeBedrockRetrieval
           (stub_upstream (Throw (Error (str "unused")))
                          (Ok stub_response))
           (str "what is x?") VUndefined empty_world)
    = Ok result
    /\ get_opt "sessionId" stub_response = VString (str "s-123")
    /\ get_opt "sessionId" result <> VString (str "s-123").
Proof.
  eexists. split; [vm_compute; reflexivity|].
  split; [reflexivity|]. discriminate.
Qed.

(** A call with the session ["s-123"] against the stub. *)
Lemma invokeBedrockRetrieval_shape_witness :
  exists result,
    fst (Retrieval.invokeBedrockRetrieval
           (stub_upstream (Throw (Error (str "unused")))
                          (Ok stub_response))
           (str "what is x?") (VString (str "s-123")) empty_world)
    = Ok result
    /\ result
       = VObject
           [("sessionId", VString (str "s-123"));
            ("response",
             normalized (VString (str "s-123")) (VString (str "answer"))
               [VObject
                  [("metadata", VUndefined);
                   ("retrievedReferences", VArray
                      [VObject (spread (stub_reference "s3://docs/a.pdf")
                         ++ [("signedUrl", VString (str
  "https://docs.s3.amazonaws.com/a.pdf?X-Amz-Signature=0"))]);
                       VObject (spread (stub_reference "s3://docs/dir/b.pdf")
                         ++ [("signedUrl", VString (str
  "https://docs.s3.amazonaws.com/dir/b.pdf?X-Amz-Signature=0"))])])]]
               VUndefined)]
    /\ get_opt "text"
         (get_opt "output" (get_opt "response" (get_opt "response" result)))
       = VString (str "answer").
Proof.
  eapply (@invokeBedrockRetrieval_shape
            (stub_upstream (Throw (Error (str "unused")))
                           (Ok stub_response))
            (str "what is x?") (VString (str "s-123")) stub_response _
            empty_world).
  - reflexivity.
  - vm_compute. reflexivity.
Defined.

(** C2, as stated, fails: the value returned is not of the normalized
    shape, and [response.output.text] of it is [undefined]. *)
Lemma invokeBedrockRetrieval_not_normalized :
  exists result,
    fst (Retrieval.invokeBedrockRetrieval
           (stub_upstream (Throw (Error (str "unused")))
                          (Ok stub_response))
           (str "what is x?") (VString (str "s-123")) empty_world)
    = Ok result
    /\ (forall sessionId text citations guardrailAction,
          result <> normalized sessionId text citations guardrailAction)
    /\ get_opt "text" (get_opt "output" stub_response)
       = VString (str "answer")
    /\ get_opt "text" (get_opt "output" (get_opt "response" result))
       <> VString (str "answer").
Proof.
  eexists. split; [vm_compute; reflexivity|].
  split; [|split; [reflexivity|discriminate]].
  intros sessionId text citations guardrailAction. discriminate.
Qed.

(** ** The /retrieve route *)

Section IndexFacts.
Context {P : Platform} {H : HttpLayer} (U : Upstream).

(** C10, amended: a request with a message and no [session_id] is
    answered with status 500 and no request goes upstream; when the
    message is a string that passes the prompt sanitizer, the error
    reported is the [TypeError] of the session sanitizer applied to
    [undefined]; otherwise the prompt sanitizer has thrown first, and
    the error reported is its own: [Prompt is too long] for a string
    that is too long, the [TypeError] of calling [trim] on a message
    that is not a string. *)
Theorem post_retrieve_without_session (props : list (string * value))
    (w : World) :
  truthy (get_own "message" props) = true ->
  lookup "session_id" props = None ->
  exists r w',
    Index.post_retrieve U (VObject props) w = (Ok r, w')
    /\ Index.status r = VNumber 500
    /\ retrieval_calls w' = retrieval_calls w
    /\ signer_calls w' = signer_calls w
    /\ agent_calls w' = agent_calls w
    /\ (forall s,
          get_own "message" props = VString s ->
          List.length (Utils.sanitizedPrompt s) <= 2048 ->
          Index.body r
          = VString (err_message (cannot_read "undefined" "replace")))
    /\ (forall s,
          get_own "message" props = VString s ->
          2048 < List.length (Utils.sanitizedPrompt s) ->
          Index.body r = VString (str "Prompt is too long"))
    /\ ((forall s, get_own "message" props <> VString s) ->
        Index.body r
        = VString (err_message (not_a_function "prompt.trim"))).
Proof.
  intros Hmsg Hsid.
  unfold Index.post_retrieve, Async.bind, Async.lift, Async.print,
    Async.try_catch, Async.ret.
  simpl get. unfold get_own at 2. rewrite Hsid. cbv beta iota.
  rewrite Hmsg. cbv beta iota delta [negb].
  destruct (get_own "message" props) as [| | b | n | s | l | o];
    simpl in Hmsg; try discriminate Hmsg.
  - simpl. do 2 eexists. split; [reflexivity|].
    do 4 (split; [reflexivity|]).
    split; [intros s Hs; discriminate Hs|].
    split; [intros s Hs; discriminate Hs|]. reflexivity.
  - simpl. do 2 eexists. split; [reflexivity|].
    do 4 (split; [reflexivity|]).
    split; [intros s Hs; discriminate Hs|].
    split; [intros s Hs; discriminate Hs|]. reflexivity.
  - simpl on_string. unfold Utils.sanitize.
    destruct (2048 <? List.length (Utils.sanitizedPrompt s))%nat eqn:Elen.
    + cbv beta iota. do 2 eexists. split; [reflexivity|].
      do 4 (split; [reflexivity|]).
      split; [|split].
      * intros s' [= <-] Hle. apply Nat.ltb_lt in Elen. lia.
      * intros s' _ _. reflexivity.
      * intros Hnot. now destruct (Hnot s).
    + cbv beta iota. do 2 eexists. split; [reflexivity|].
      do 4 (split; [reflexivity|]).
      split; [|split].
      * intros s' _ _. reflexivity.
      * intros s' [= <-] Hgt. apply Nat.ltb_ge in Elen. lia.
      * intros Hnot. now destruct (Hnot s).
  - simpl. do 2 eexists. split; [reflexivity|].
    do 4 (split; [reflexivity|]).
    split; [intros s Hs; discriminate Hs|].
    split; [intros s Hs; discriminate Hs|]. reflexivity.
  - simpl. do 2 eexists. split; [reflexivity|].
    do 4 (split; [reflexivity|]).
    split; [intros s Hs; discriminate Hs|].
    split; [intros s Hs; discriminate Hs|]. reflexivity.
Qed.

End IndexFacts.

(** Three requests without [session_id]: a short message, a message of
    2049 characters, and a message that is a number. *)
Lemma post_retrieve_without_session_witness :
  (exists w',
     @Index.post_retrieve ascii_platform stub_http
       (stub_upstream (Throw (Error (str "unused"))) (Ok stub_response))
       (VObject [("message", VString (str "What is X?"))]) empty_world
     = (Ok {| Index.status := VNumber 500;
              Index.body := VString (str
                "Cannot read properties of undefined (reading 'replace')") |},
        w')
     /\ retrieval_calls w' = [])
  /\ (exists w',
        @Index.post_retrieve ascii_platform stub_http
          (stub_upstream (Throw (Error (str "unused"))) (Ok stub_response))
          (VObject [("message", VString (repeat (chr "a") 2049))])
          empty_world
        = (Ok {| Index.status := VNumber 500;
                 Index.body := VString (str "Prompt is too long") |}, w')
        /\ retrieval_calls w' = [])
  /\ (exists w',
        @Index.post_retrieve ascii_platform stub_http
          (stub_upstream (Throw (Error (str "unused"))) (Ok stub_response))
          (VObject [("message", VNumber 7)]) empty_world
        = (Ok {| Index.status := VNumber 500;
                 Index.body := VString (str
                   "prompt.trim is not a function") |}, w')
        /\ retrieval_calls w' = []).
Proof.
  split; [|split].
  - destruct (@post_retrieve_without_session ascii_platform stub_http
                (stub_upstream (Throw (Error (str "unused")))
                               (Ok stub_response))
                [("message", VString (str "What is X?"))] empty_world
                eq_refl eq_refl)
      as (r & w' & Hrun & Hst & Hcalls & _ & _ & Hbody & _ & _).
    exists w'. split; [|exact Hcalls].
    rewrite Hrun. destruct r as [st bd]. simpl in Hst, Hbody.
    rewrite Hst. rewrite (Hbody (str "What is X?") eq_refl).
    + reflexivity.
    + apply Nat.leb_le. vm_compute. reflexivity.
  - destruct (@post_retrieve_without_session ascii_platform stub_http
                (stub_upstream (Throw (Error (str "unused")))
                               (Ok stub_response))
                [("message", VString (repeat (chr "a") 2049))] empty_world
                eq_refl eq_refl)
      as (r & w' & Hrun & Hst & Hcalls & _ & _ & _ & Hbody & _).
    exists w'. split; [|exact Hcalls].
    rewrite Hrun. destruct r as [st bd]. simpl in Hst, Hbody.
    rewrite Hst. rewrite (Hbody (repeat (chr "a") 2049) eq_refl).
    + reflexivity.
    + apply Nat.ltb_lt. vm_compute. reflexivity.
  - destruct (@post_retrieve_without_session ascii_platform stub_http
                (stub_upstream (Throw (Error (str "unused")))
                               (Ok stub_response))
                [("message", VNumber 7)] empty_world
                eq_refl eq_refl)
      as (r & w' & Hrun & Hst & Hcalls & _ & _ & _ & _ & Hbody).
    exists w'. split; [|exact Hcalls].
    rewrite Hrun. destruct r as [st bd]. simpl in Hst, Hbody.
    rewrite Hst. rewrite Hbody; [reflexivity|].
    intros s. discriminate.
Defined.

(** C10, as stated, fails: with a message of 2049 characters and no
    [session_id], the prompt sanitizer throws first; the session
    sanitizer is not applied and the error reported is not its
    [TypeError]. *)
Lemma post_retrieve_long_message_without_session :
  fst (@Index.post_retrieve ascii_platform stub_http
         (stub_upstream (Throw (Error (str "unused"))) (Ok stub_response))
         (VObject [("message", VString (repeat (chr "a") 2049))])
         empty_world)
  = Ok {| Index.status := VNumber 500;
          Index.body := VString (str "Prompt is too long") |}
  /\ str "Prompt is too long"
     <> err_message (cannot_read "undefined" "replace").
Proof.
  split; [vm_compute; reflexivity|discriminate].
Qed.

(** * Further properties of the sanitizers *)

Lemma filter_filter_same {A} (f : A -> bool) (l : list A) :
  filter f (filter f l) = filter f l.
Proof.
  induction l as [|a l IH]; simpl; [reflexivity|].
  destruct (f a) eqn:E; simpl; [rewrite E|]; now rewrite ?IH.
Qed.

Lemma trimStart_blank (s : jsstring) :
  forallb is_trimmed s = true -> trimStart s = [].
Proof.
  induction s as [|c s IH]; simpl; [reflexivity|].
  intros H. apply andb_prop in H. destruct H as [Hc Hs].
  rewrite Hc. now apply IH.
Qed.

Lemma trimStart_blank_app (a s : jsstring) :
  forallb is_trimmed a = true -> trimStart (a ++ s) = trimStart s.
Proof.
  induction a as [|c a IH]; simpl; [reflexivity|].
  intros H. apply andb_prop in H. destruct H as [Hc Ha].
  rewrite Hc. now apply IH.
Qed.

Lemma trimStart_app_inked (s b : jsstring) :
  forallb is_trimmed s = false -> trimStart (s ++ b) = trimStart s ++ b.
Proof.
  induction s as [|c s IH]; simpl; [discriminate|].
  destruct (is_trimmed c); simpl; [exact IH|reflexivity].
Qed.

Lemma forallb_rev {A} (f : A -> bool) (l : list A) :
  forallb f (rev l) = forallb f l.
Proof.
  induction l as [|a l IH]; simpl; [reflexivity|].
  rewrite forallb_app, IH. simpl. rewrite andb_true_r. apply andb_comm.
Qed.

Lemma trimEnd_blank_app (s b : jsstring) :
  forallb is_trimmed b = true -> trimEnd (s ++ b) = trimEnd s.
Proof.
  intros Hb. unfold trimEnd. rewrite rev_app_distr.
  rewrite trimStart_blank_app; [reflexivity|]. now rewrite forallb_rev.
Qed.

(** Blank code units around a string do not survive [trim]. *)
Lemma trim_blank_around (a s b : jsstring) :
  forallb is_trimmed a = true -> forallb is_trimmed b = true ->
  trim (a ++ s ++ b) = trim s.
Proof.
  intros Ha Hb. unfold trim. rewrite trimStart_blank_app by exact Ha.
  destruct (forallb is_trimmed s) eqn:Hs.
  - rewrite trimStart_blank_app by exact Hs.
    rewrite (@trimStart_blank b Hb). now rewrite (@trimStart_blank s Hs).
  - rewrite trimStart_app_inked by exact Hs. now apply trimEnd_blank_app.
Qed.

Lemma special_not_blank (c : code_unit) :
  Utils.is_special c = true -> is_trimmed c = false.
Proof.
  unfold Utils.is_special. intros H.
  repeat (apply orb_prop in H; destruct H as [H|H]);
    apply N.eqb_eq in H; subst c; reflexivity.
Qed.

Lemma trimStart_special (s : jsstring) :
  forallb Utils.is_special s = true -> trimStart s = s.
Proof.
  destruct s as [|c s]; simpl; [reflexivity|].
  intros H. apply andb_prop in H. destruct H as [Hc _].
  now rewrite (@special_not_blank c Hc).
Qed.

Lemma trim_special (s : jsstring) :
  forallb Utils.is_special s = true -> trim s = s.
Proof.
  intros H. unfold trim, trimEnd. rewrite (@trimStart_special s H).
  rewrite trimStart_special; [apply rev_involutive|].
  now rewrite forallb_rev.
Qed.

Lemma filter_none {A} (f : A -> bool) (l : list A) :
  forallb (fun a => negb (f a)) l = true -> filter f l = [].
Proof.
  induction l as [|a l IH]; simpl; [reflexivity|].
  intros H. apply andb_prop in H. destruct H as [Ha Hl].
  apply negb_true_iff in Ha. rewrite Ha. now apply IH.
Qed.

Section MoreUtilsFacts.
Context {P : Platform}.

Lemma sanitize_ok_inv (prompt result : jsstring) :
  Utils.sanitize prompt = Ok result ->
  result = cleaned prompt
  /\ forallb (fun c => negb (Utils.is_special c)) result = true
  /\ List.length result <= 2048.
Proof.
  unfold Utils.sanitize. rewrite sanitizedPrompt_is_strip.
  fold (cleaned prompt).
  destruct (2048 <? List.length (cleaned prompt))%nat eqn:E; [discriminate|].
  intros [= <-]. split; [reflexivity|]. split.
  - unfold cleaned. apply forallb_forall. intros c Hc.
    now apply filter_In in Hc.
  - apply Nat.ltb_ge in E. exact E.
Qed.

(** X1: what [sanitize] returns is the cleaned prompt; it has none of
    the five characters and at most 2048 code units. *)
Theorem sanitize_returns_clean (prompt result : jsstring) :
  Utils.sanitize prompt = Ok result ->
  result = cleaned prompt
  /\ forallb (fun c => negb (Utils.is_special c)) result = true
  /\ List.length result <= 2048.
Proof.
  apply sanitize_ok_inv.
Qed.

(** X2: [sanitize] gives a result back unchanged when [trim] and
    [toLowerCase] leave that result alone; without that it need not, as
    the strip can uncover blanks at the ends. *)
Theorem sanitize_idempotent_on_stable (prompt result : jsstring) :
  Utils.sanitize prompt = Ok result ->
  trim result = result ->
  toLowerCase result = result ->
  Utils.sanitize result = Ok result.
Proof.
  intros Hs Htrim Hlow.
  destruct (@sanitize_ok_inv prompt result Hs) as (Hres & _ & Hlen).
  unfold Utils.sanitize. rewrite sanitizedPrompt_is_strip.
  rewrite Htrim, Hlow.
  assert (filter (fun c => negb (Utils.is_special c)) result = result) as ->.
  { rewrite Hres at 1. unfold cleaned. rewrite filter_filter_same.
    now rewrite Hres. }
  apply Nat.ltb_ge in Hlen. now rewrite Hlen.
Qed.

(** X3: a prompt made only of the five characters, however long, is
    sanitized to the empty string ([toLowerCase] has nothing to change
    in it). *)
Theorem sanitize_only_special (prompt : jsstring) :
  forallb Utils.is_special prompt = true ->
  toLowerCase prompt = prompt ->
  Utils.sanitize prompt = Ok [].
Proof.
  intros Hsp Hlow.
  unfold Utils.sanitize. rewrite sanitizedPrompt_is_strip.
  rewrite (@trim_special prompt Hsp), Hlow.
  rewrite filter_none; [reflexivity|].
  apply forallb_forall. intros c Hc.
  rewrite forallb_forall in Hsp. rewrite (Hsp c Hc). reflexivity.
Qed.

(** X4: blanks (white space and line terminators) before and after a
    prompt do not change what [sanitize] does with it. *)
Theorem sanitize_ignores_blanks_around (before prompt after : jsstring) :
  forallb is_trimmed before = true ->
  forallb is_trimmed after = true ->
  Utils.sanitize (before ++ prompt ++ after) = Utils.sanitize prompt.
Proof.
  intros Hb Ha. unfold Utils.sanitize, Utils.sanitizedPrompt.
  now rewrite (@trim_blank_around before prompt after Hb Ha).
Qed.

End MoreUtilsFacts.

(** X5: sanitizing a session identifier twice is sanitizing it once. *)
Theorem sanitizeSessionID_idempotent (input : jsstring) :
  Utils.sanitizeSessionID (Utils.sanitizeSessionID input)
  = Utils.sanitizeSessionID input.
Proof.
  unfold Utils.sanitizeSessionID. rewrite !replace_g_empty.
  apply filter_filter_same.
Qed.

Lemma sanitize_returns_clean_witness :
  str "hi b" = @cleaned ascii_platform (str " Hi <b> ")
  /\ forallb (fun c => negb (Utils.is_special c)) (str "hi b") = true
  /\ List.length (str "hi b") <= 2048.
Proof.
  apply (@sanitize_returns_clean ascii_platform (str " Hi <b> ")).
  reflexivity.
Defined.

Lemma sanitize_idempotent_on_stable_witness :
  @Utils.sanitize ascii_platform (str "hi b") = Ok (str "hi b").
Proof.
  apply (@sanitize_idempotent_on_stable ascii_platform (str " Hi <b> "));
    reflexivity.
Defined.

Lemma sanitize_only_special_witness :
  @Utils.sanitize ascii_platform (repeat (chr "<") 3000 ++ str "&|;>")
  = Ok [].
Proof.
  apply (@sanitize_only_special ascii_platform); vm_compute; reflexivity.
Defined.

Lemma sanitize_ignores_blanks_around_witness :
  @Utils.sanitize ascii_platform
     (str "  " ++ str "What is X?" ++ [10%N; 160%N; 8233%N])
  = @Utils.sanitize ascii_platform (str "What is X?").
Proof.
  apply (@sanitize_ignores_blanks_around ascii_platform); reflexivity.
Defined.

(** The strip can uncover a blank that a second pass trims. *)
Lemma sanitize_twice_differs :
  @Utils.sanitize ascii_platform (str "< a") = Ok (str " a")
  /\ @Utils.sanitize ascii_platform (str " a") = Ok (str "a").
Proof.
  split; reflexivity.
Qed.

(** * Further properties of the citation resolver *)

(** X6: [parseS3Uri] returns a bucket and a key exactly for the string
    [s3://bucket/key] of a well-formed location, and the pair it returns
    is that bucket and that key. *)
Theorem parseS3Uri_accepts_exactly (uri : value) (bucket key : jsstring) :
  Retrieval.parseS3Uri uri = Ok (bucket, key)
  <-> uri = VString (s3_uri bucket key) /\ well_formed_location bucket key.
Proof.
  split.
  - apply parseS3Uri_only_well_formed.
  - intros [-> Hwf]. now apply parseS3Uri_well_formed.
Qed.

(** X7: for a string that is not the URI of a well-formed location,
    [parseS3Uri] throws an error whose message quotes the string. *)
Theorem parseS3Uri_quotes_refused (s : jsstring) :
  (forall bucket key,
     s = s3_uri bucket key -> ~ well_formed_location bucket key) ->
  Retrieval.parseS3Uri (VString s)
  = Throw (Error (str "Invalid S3 URI: " ++ s)).
Proof.
  intros Hnot.
  destruct (Retrieval.parseS3Uri (VString s)) as [[b k]|e] eqn:E.
  - apply parseS3Uri_only_well_formed in E. destruct E as [[= ->] Hwf].
    now destruct (Hnot b k eq_refl).
  - revert E. unfold Retrieval.parseS3Uri.
    destruct (Retrieval.match_s3 s) as [[b k]|].
    + destruct b, k; intros [= <-]; reflexivity.
    + intros [= <-]. reflexivity.
Qed.

Lemma parseS3Uri_quotes_refused_witness :
  Retrieval.parseS3Uri (VString (str "s3://bucket/"))
  = Throw (Error (str "Invalid S3 URI: s3://bucket/")).
Proof.
  apply (@parseS3Uri_quotes_refused (str "s3://bucket/")).
  intros bucket key Huri Hwf.
  pose proof (@parseS3Uri_well_formed bucket key Hwf) as Hparse.
  rewrite <- Huri in Hparse. vm_compute in Hparse. discriminate.
Defined.

Lemma collect_fulfils_inv {A} (os : list (outcome A)) (l : list A) :
  Async.collect os = Ok l -> Forall2 (fun o a => o = Ok a) os l.
Proof.
  revert l. induction os as [|o os IH]; intros l; simpl.
  - intros [= <-]. constructor.
  - destruct o as [a|e]; [|discriminate].
    destruct (Async.collect os) as [l'|]; [|discriminate].
    intros [= <-]. constructor; [reflexivity|now apply IH].
Qed.

Section MoreCitationFacts.
Variable U : Upstream.

(** A reference that resolves is well formed, and its link is the one
    the signer issued for its bucket and key. *)
Lemma resolution_ok_inv (reference o : value) :
  resolution U reference = Ok o ->
  exists bk url,
    located reference bk
    /\ getSignedUrl U {| Bucket := fst bk; Key := snd bk |} 3600 = Ok url
    /\ o = VObject (set_prop "signedUrl" (VString url) (spread reference)).
Proof.
  rewrite resolution_unfold.
  destruct (get_total "location" reference) as [[e1 ->] | ->];
    [discriminate|].
  destruct (get_total "s3Location" (get_opt "location" reference))
    as [[e2 ->] | ->]; [discriminate|].
  destruct (get_total "uri"
              (get_opt "s3Location" (get_opt "location" reference)))
    as [[e3 ->] | ->]; [discriminate|].
  fold (reference_uri reference).
  destruct (Retrieval.parseS3Uri (reference_uri reference))
    as [[b k]|e] eqn:Hp; [|discriminate].
  apply parseS3Uri_only_well_formed in Hp.
  destruct (getSignedUrl U _ _) as [url|] eqn:Hs; [|discriminate].
  intros [= <-]. exists (b, k), url. unfold located. simpl. auto.
Qed.

(** The trace of one callback on a located reference. *)
Lemma resolveReference_trace (reference : value) (bk : jsstring * jsstring)
    (w : World) :
  located reference bk ->
  snd (Retrieval.resolveReference U reference w)
  = {| agent_calls := agent_calls w; retrieval_calls := retrieval_calls w;
       signer_calls := signer_calls w ++ [signing_request bk];
       console := console w |}.
Proof.
  intros [Huri Hwf]. unfold reference_uri in Huri.
  destruct (get_opt_object _ _ Huri) as (p3 & E3 & G3); [discriminate|].
  destruct (get_opt_object _ _ E3) as (p2 & E2 & G2); [discriminate|].
  destruct (get_opt_object _ _ E2) as (p1 & E1 & G1); [discriminate|].
  rewrite E2 in G2. rewrite E3 in G3.
  unfold Retrieval.resolveReference, Async.bind, Async.lift,
    Retrieval.s3_getSignedUrl, Async.ret.
  rewrite G1, G2, G3, (@parseS3Uri_well_formed (fst bk) (snd bk) Hwf).
  simpl. unfold signing_request.
  destruct (getSignedUrl U _ _); reflexivity.
Qed.

Lemma start_all_trace (refs : list value)
    (locations : list (jsstring * jsstring)) :
  Forall2 located refs locations ->
  forall w,
    snd (Async.start_all (Retrieval.resolveReference U) refs w)
    = {| agent_calls := agent_calls w; retrieval_calls := retrieval_calls w;
         signer_calls := signer_calls w ++ map signing_request locations;
         console := console w |}.
Proof.
  induction 1 as [|r bk refs locations Hr _ IH]; intros w; simpl.
  - rewrite app_nil_r. now destruct w.
  - pose proof (@resolveReference_trace r bk w Hr) as Hw.
    destruct (Retrieval.resolveReference U r w) as [o w1]. simpl in Hw.
    specialize (IH w1).
    destruct (Async.start_all _ refs w1) as [os w2]. simpl in *.
    rewrite IH, Hw. simpl. now rewrite <- app_assoc.
Qed.

(** X8: for a citation whose references point at well-formed locations,
    [parseCitation] asks the signer for one link per reference, in the
    order of the references, each for its bucket and key and for 3600
    seconds, whether or not the signer then issues them; it sends
    nothing else. *)
Theorem parseCitation_signing_requests (citation : value)
    (refs : list value) (locations : list (jsstring * jsstring))
    (w : World) :
  get_opt "retrievedReferences" citation = VArray refs ->
  Forall2 located refs locations ->
  snd (Retrieval.parseCitation U citation w)
  = {| agent_calls := agent_calls w; retrieval_calls := retrieval_calls w;
       signer_calls := signer_calls w ++ map signing_request locations;
       console := console w |}.
Proof.
  intros Hrefs Hloc.
  destruct (get_opt_object _ _ Hrefs) as (props & -> & Hget);
    [discriminate|].
  unfold Retrieval.parseCitation, Async.bind, Async.lift.
  rewrite Hget. unfold Retrieval.map_all, Async.Promise_all_map.
  pose proof (@start_all_trace refs locations Hloc w) as Hw.
  destruct (Async.start_all _ refs w) as [os w1]. simpl in Hw.
  destruct (Async.collect os); simpl; exact Hw.
Qed.

(** X9: when [parseCitation] returns, the citation had an array of
    references, each of them well formed, and the result lists as many
    references, each being the original with the link that the signer
    issued for its bucket and key. *)
Theorem parseCitation_returns_only_complete (citation result : value)
    (w : World) :
  fst (Retrieval.parseCitation U citation w) = Ok result ->
  exists refs enriched,
    get_opt "retrievedReferences" citation = VArray refs
    /\ result = VObject [("metadata", get_opt "metadata" citation);
                         ("retrievedReferences", VArray enriched)]
    /\ List.length enriched = List.length refs
    /\ Forall2
         (fun reference e =>
            exists bk url,
              located reference bk
              /\ getSignedUrl U {| Bucket := fst bk; Key := snd bk |} 3600
                 = Ok url
              /\ e = VObject (set_prop "signedUrl" (VString url)
                                (spread reference)))
         refs enriched.
Proof.
  intros Hok.
  assert (exists refs, get_opt "retrievedReferences" citation = VArray refs)
    as [refs Hrefs].
  { revert Hok. unfold Retrieval.parseCitation, Async.bind, Async.lift.
    destruct (get_total "retrievedReferences" citation) as [[e ->] | ->];
      [discriminate|].
    unfold Retrieval.map_all.
    destruct (get_opt "retrievedReferences" citation); try discriminate.
    eauto. }
  rewrite (@parseCitation_outcome U citation refs w Hrefs) in Hok.
  destruct (Async.collect (map (resolution U) refs)) as [enriched|] eqn:Hc;
    [|discriminate].
  injection Hok as <-. exists refs, enriched.
  split; [exact Hrefs|]. split; [reflexivity|].
  apply collect_fulfils_inv in Hc.
  assert (Forall2 (fun reference e => resolution U reference = Ok e)
            refs enriched) as Hall.
  { clear - Hc. remember (map (resolution U) refs) as os eqn:Eos.
    revert refs Eos. induction Hc as [|o a os l Ho _ IH]; intros refs Eos.
    - destruct refs; [constructor|discriminate].
    - destruct refs as [|r refs]; [discriminate|].
      injection Eos as -> ->. constructor; [exact Ho|now apply IH]. }
  split.
  - clear - Hall. induction Hall; simpl; congruence.
  - clear - Hall. induction Hall as [|r e refs enriched Hr _ IH];
      constructor; [|exact IH].
    now apply resolution_ok_inv.
Qed.

(** X10: a citation without an array of references makes
    [parseCitation] throw a [TypeError] before it asks for anything. *)
Theorem parseCitation_needs_references (citation : value) (w : World) :
  (forall refs, get_opt "retrievedReferences" citation <> VArray refs) ->
  exists e,
    Retrieval.parseCitation U citation w = (Throw e, w)
    /\ err_name e = "TypeError".
Proof.
  intros Hnot.
  unfold Retrieval.parseCitation, Async.bind, Async.lift.
  destruct citation as [| | b | n | s | l | props]; simpl;
    try (eexists; split; reflexivity).
  simpl in Hnot. unfold Retrieval.map_all.
  destruct (get_own "retrievedReferences" props) as [| | b | n | s | l | o];
    try (eexists; split; reflexivity).
  now destruct (Hnot l).
Qed.

End MoreCitationFacts.

Lemma parseCitation_signing_requests_witness :
  snd (Retrieval.parseCitation
         (stub_upstream (Throw (Error (str "unused")))
                        (Throw (Error (str "unused"))))
         (stub_citation ["s3://docs/a.pdf"; "s3://other/dir/b.pdf"])
         empty_world)
  = {| agent_calls := []; retrieval_calls := [];
       signer_calls :=
         [] ++ map signing_request
                 [(str "docs", str "a.pdf"); (str "other", str "dir/b.pdf")];
       console := [] |}.
Proof.
  apply (@parseCitation_signing_requests
           (stub_upstream (Throw (Error (str "unused")))
                          (Throw (Error (str "unused"))))
           (stub_citation ["s3://docs/a.pdf"; "s3://other/dir/b.pdf"])
           (map stub_reference ["s3://docs/a.pdf"; "s3://other/dir/b.pdf"])
           [(str "docs", str "a.pdf"); (str "other", str "dir/b.pdf")]
           empty_world).
  - reflexivity.
  - repeat constructor; simpl; discriminate.
Defined.

Lemma parseCitation_returns_only_complete_witness :
  exists refs enriched,
    get_opt "retrievedReferences" (stub_citation ["s3://docs/a.pdf"])
      = VArray refs
    /\ VObject [("metadata", VUndefined);
                ("retrievedReferences", VArray
                   [VObject (spread (stub_reference "s3://docs/a.pdf")
                      ++ [("signedUrl", VString (str
  "https://docs.s3.amazonaws.com/a.pdf?X-Amz-Signature=0"))])])]
       = VObject [("metadata",
                   get_opt "metadata" (stub_citation ["s3://docs/a.pdf"]));
                  ("retrievedReferences", VArray enriched)]
    /\ List.length enriched = List.length refs
    /\ Forall2
         (fun reference e =>
            exists bk url,
              located reference bk
              /\ stub_getSignedUrl {| Bucket := fst bk; Key := snd bk |} 3600
                 = Ok url
              /\ e = VObject (set_prop "signedUrl" (VString url)
                                (spread reference)))
         refs enriched.
Proof.
  apply (@parseCitation_returns_only_complete
           (stub_upstream (Throw (Error (str "unused")))
                          (Throw (Error (str "unused"))))
           (stub_citation ["s3://docs/a.pdf"]) _ empty_world).
  reflexivity.
Defined.

Lemma parseCitation_needs_references_witness :
  exists e,
    Retrieval.parseCitation
      (stub_upstream (Throw (Error (str "unused")))
                     (Throw (Error (str "unused"))))
      (VObject [("generatedResponsePart", VObject [])]) empty_world
    = (Throw e, empty_world)
    /\ err_name e = "TypeError".
Proof.
  apply (@parseCitation_needs_references
           (stub_upstream (Throw (Error (str "unused")))
                          (Throw (Error (str "unused"))))
           (VObject [("generatedResponsePart", VObject [])]) empty_world).
  intros refs. discriminate.
Defined.

(** * Further properties of the retrieval client *)

Lemma signed_for_an_hour_refl (w : World) : signed_for_an_hour w w.
Proof.
  split; [reflexivity|]. exists []. now rewrite app_nil_r.
Qed.

Lemma signed_for_an_hour_trans (w1 w2 w3 : World) :
  signed_for_an_hour w1 w2 -> signed_for_an_hour w2 w3 ->
  signed_for_an_hour w1 w3.
Proof.
  intros [Ha (l1 & E1 & F1)] [Hb (l2 & E2 & F2)].
  split; [congruence|]. exists (l1 ++ l2).
  split; [now rewrite E2, E1, app_assoc|]. now apply Forall_app.
Qed.

Section MoreRetrievalFacts.
Variable U : Upstream.

Lemma resolveReference_signed_for_an_hour (reference : value) (w : World) :
  signed_for_an_hour w (snd (Retrieval.resolveReference U reference w)).
Proof.
  unfold Retrieval.resolveReference, Async.bind, Async.lift,
    Retrieval.s3_getSignedUrl, Async.ret.
  destruct (get "location" reference) as [l|];
    [|apply signed_for_an_hour_refl].
  destruct (get "s3Location" l) as [s|]; [|apply signed_for_an_hour_refl].
  destruct (get "uri" s) as [u|]; [|apply signed_for_an_hour_refl].
  destruct (Retrieval.parseS3Uri u) as [[b k]|];
    [|apply signed_for_an_hour_refl].
  simpl.
  assert (signed_for_an_hour w
            {| agent_calls := agent_calls w;
               retrieval_calls := retrieval_calls w;
               signer_calls :=
                 signer_calls w ++ [({| Bucket := b; Key := k |}, 3600%N)];
               console := console w |}) as H.
  { split; [reflexivity|]. eexists. split; [reflexivity|].
    repeat constructor. }
  destruct (getSignedUrl U _ _); exact H.
Qed.

Lemma parseCitation_signed_for_an_hour (citation : value) (w : World) :
  signed_for_an_hour w (snd (Retrieval.parseCitation U citation w)).
Proof.
  unfold Retrieval.parseCitation, Async.bind, Async.lift.
  destruct (get "retrievedReferences" citation) as [refs|];
    [|apply signed_for_an_hour_refl].
  unfold Retrieval.map_all.
  destruct refs as [| | | | |l|]; try apply signed_for_an_hour_refl.
  unfold Async.Promise_all_map.
  pose proof (@start_all_keeps _ _ signed_for_an_hour
                (Retrieval.resolveReference U) l
                signed_for_an_hour_refl signed_for_an_hour_trans
                resolveReference_signed_for_an_hour w) as H.
  destruct (Async.start_all _ l w) as [os w1]. simpl in H.
  destruct (Async.collect os); exact H.
Qed.

Lemma all_citations_signed_for_an_hour (response : value) (w : World) :
  signed_for_an_hour w (snd (Retrieval.all_citations U response w)).
Proof.
  unfold Retrieval.all_citations.
  destruct (get_opt "citations" response) as [| | | | |l|];
    try apply signed_for_an_hour_refl.
  unfold Async.Promise_all_map.
  pose proof (@start_all_keeps _ _ signed_for_an_hour
                (Retrieval.parseCitation U) l
                signed_for_an_hour_refl signed_for_an_hour_trans
                parseCitation_signed_for_an_hour w) as H.
  now destruct (Async.start_all _ l w) as [os w1].
Qed.

Lemma citations_resolution_array (response : value) (cits : list value) :
  get_opt "citations" response = VArray cits ->
  citations_resolution U response
  = Async.collect
      (map (fun c => fst (Retrieval.parseCitation U c empty_world)) cits).
Proof.
  intros Hc. unfold citations_resolution, Retrieval.all_citations.
  rewrite Hc. apply Promise_all_map_outcome.
  intros x w _. apply parseCitation_outcome_any.
Qed.

Lemma invokeBedrockRetrieval_sends_once_aux (prompt : jsstring)
    (sessionId : value) (w : World) :
  exists request,
    retrieval_calls
      (snd (Retrieval.invokeBedrockRetrieval U prompt sessionId w))
    = retrieval_calls w ++ [VObject request]
    /\ lookup "sessionId" request
       = (if truthy sessionId then Some sessionId else None)
    /\ get_opt "text" (get_own "input" request) = VString prompt.
Proof.
  exists (if truthy sessionId
          then set_prop "sessionId" sessionId (Retrieval.base_input U prompt)
          else Retrieval.base_input U prompt).
  split; [apply invokeBedrockRetrieval_request|].
  destruct (truthy sessionId); split; reflexivity.
Qed.

(** X11: whatever the outcome, [invokeBedrockRetrieval] sends exactly
    one request. Its text is the prompt, it carries the session
    identifier exactly when that is truthy (an empty string is left
    out), and everything else in it is fixed. *)
Theorem invokeBedrockRetrieval_sends_once (prompt : jsstring)
    (sessionId : value) (w : World) :
  exists request,
    retrieval_calls
      (snd (Retrieval.invokeBedrockRetrieval U prompt sessionId w))
    = retrieval_calls w ++ [VObject request]
    /\ lookup "sessionId" request
       = (if truthy sessionId then Some sessionId else None)
    /\ get_opt "text" (get_own "input" request) = VString prompt
    /\ (forall k, k <> "sessionId" ->
          lookup k request = lookup k (Retrieval.base_input U prompt)).
Proof.
  exists (if truthy sessionId
          then set_prop "sessionId" sessionId (Retrieval.base_input U prompt)
          else Retrieval.base_input U prompt).
  split; [apply invokeBedrockRetrieval_request|].
  destruct (truthy sessionId); repeat split; intros;
    try reflexivity.
  now apply lookup_set_prop_other.
Qed.

(** X12: when the upstream call fails, [invokeBedrockRetrieval] fails
    too and asks the signer for nothing. An error named
    [ServiceException] is replaced by a plain [Error] whose message is
    built from its code and message; any other error is rethrown as it
    is. *)
Theorem invokeBedrockRetrieval_upstream_failure (prompt : jsstring)
    (sessionId : value) (e : js_error) (w : World) :
  send_RetrieveAndGenerate U (retrieval_request U prompt sessionId)
    = Throw e ->
  fst (Retrieval.invokeBedrockRetrieval U prompt sessionId w)
  = Throw (if String.eqb (err_name e) "ServiceException"
           then Error (str "AWS Bedrock API error: "
                         ++ match err_code e with
                            | Some c => c
                            | None => str "undefined"
                            end
                         ++ str " - " ++ err_message e)
           else e)
  /\ signer_calls
       (snd (Retrieval.invokeBedrockRetrieval U prompt sessionId w))
     = signer_calls w.
Proof.
  intros Hsend.
  unfold Retrieval.invokeBedrockRetrieval, Async.try_catch, Async.bind,
    Retrieval.client_send.
  fold (retrieval_request U prompt sessionId). rewrite Hsend.
  destruct (String.eqb (err_name e) "ServiceException"); split; reflexivity.
Qed.

(** X13: an upstream response without an array of citations makes
    [invokeBedrockRetrieval] fail with a [TypeError], although the
    upstream answered. *)
Theorem invokeBedrockRetrieval_needs_citations (prompt : jsstring)
    (sessionId response : value) (w : World) :
  send_RetrieveAndGenerate U (retrieval_request U prompt sessionId)
    = Ok response ->
  (forall cits, get_opt "citations" response <> VArray cits) ->
  exists e,
    fst (Retrieval.invokeBedrockRetrieval U prompt sessionId w) = Throw e
    /\ err_name e = "TypeError".
Proof.
  intros Hsend Hnot.
  rewrite invokeBedrockRetrieval_outcome, Hsend.
  unfold citations_resolution, Retrieval.all_citations.
  destruct (get_opt "citations" response) as [| | b | n | s | l | o];
    try (eexists; split; reflexivity).
  now destruct (Hnot l).
Qed.

(** X14: one malformed reference in one citation of the response makes
    the whole of [invokeBedrockRetrieval] fail: no answer is returned
    with some citations resolved. *)
Theorem invokeBedrockRetrieval_all_or_nothing (prompt : jsstring)
    (sessionId response : value) (cits refs : list value)
    (citation reference : value) (w : World) :
  send_RetrieveAndGenerate U (retrieval_request U prompt sessionId)
    = Ok response ->
  get_opt "citations" response = VArray cits ->
  In citation cits ->
  get_opt "retrievedReferences" citation = VArray refs ->
  In reference refs ->
  ~ well_formed_reference reference ->
  exists e,
    fst (Retrieval.invokeBedrockRetrieval U prompt sessionId w) = Throw e.
Proof.
  intros Hsend Hcits Hc Hrefs Hr Hbad.
  rewrite invokeBedrockRetrieval_outcome, Hsend.
  rewrite (@citations_resolution_array response cits Hcits).
  destruct (@resolution_malformed U reference Hbad) as [e He].
  assert (exists e', fst (Retrieval.parseCitation U citation empty_world)
                     = Throw e') as [e' He'].
  { rewrite (@parseCitation_outcome U citation refs empty_world Hrefs).
    destruct (@collect_rejects _ (map (resolution U) refs) e) as [e1 ->];
      [|eauto].
    rewrite <- He. now apply in_map. }
  destruct (@collect_rejects _
              (map (fun c => fst (Retrieval.parseCitation U c empty_world))
                 cits) e') as [e2 ->]; [|eauto].
  rewrite <- He'.
  now apply (in_map (fun c => fst (Retrieval.parseCitation U c empty_world))).
Qed.

(** X15: whatever the outcome, every link that [invokeBedrockRetrieval]
    asks the signer for expires after 3600 seconds, and it sends nothing
    to the agent. *)
Theorem invokeBedrockRetrieval_signs_for_an_hour (prompt : jsstring)
    (sessionId : value) (w : World) :
  signed_for_an_hour w
    (snd (Retrieval.invokeBedrockRetrieval U prompt sessionId w)).
Proof.
  unfold Retrieval.invokeBedrockRetrieval, Async.try_catch, Async.bind,
    Retrieval.client_send.
  fold (retrieval_request U prompt sessionId).
  destruct (send_RetrieveAndGenerate U _) as [response|e].
  - match goal with
    | |- context [Retrieval.all_citations U response ?w1] =>
        pose proof (all_citations_signed_for_an_hour response w1) as H;
        destruct (Retrieval.all_citations U response w1) as [[cits|e] w2]
    end; unfold signed_for_an_hour in *; simpl in H.
    + simpl. exact H.
    + destruct (String.eqb (err_name e) "ServiceException"); simpl;
        exact H.
  - unfold signed_for_an_hour.
    destruct (String.eqb (err_name e) "ServiceException"); simpl;
      (split; [reflexivity|]); exists []; now rewrite app_nil_r.
Qed.

End MoreRetrievalFacts.

Lemma invokeBedrockRetrieval_upstream_failure_witness :
  fst (Retrieval.invokeBedrockRetrieval
         (stub_upstream (Throw (Error (str "unused")))
                        (Throw stub_service_exception))
         (str "what is x?") VUndefined empty_world)
  = Throw (Error (str
      "AWS Bedrock API error: ThrottlingException - Rate exceeded"))
  /\ signer_calls
       (snd (Retrieval.invokeBedrockRetrieval
               (stub_upstream (Throw (Error (str "unused")))
                              (Throw stub_service_exception))
               (str "what is x?") VUndefined empty_world))
     = [].
Proof.
  apply (@invokeBedrockRetrieval_upstream_failure
           (stub_upstream (Throw (Error (str "unused")))
                          (Throw stub_service_exception))
           (str "what is x?") VUndefined stub_service_exception empty_world).
  reflexivity.
Defined.

Lemma invokeBedrockRetrieval_needs_citations_witness :
  exists e,
    fst (Retrieval.invokeBedrockRetrieval
           (stub_upstream (Throw (Error (str "unused")))
                          (Ok stub_response_without_citations))
           (str "what is x?") VUndefined empty_world)
    = Throw e
    /\ err_name e = "TypeError".
Proof.
  apply (@invokeBedrockRetrieval_needs_citations
           (stub_upstream (Throw (Error (str "unused")))
                          (Ok stub_response_without_citations))
           (str "what is x?") VUndefined stub_response_without_citations
           empty_world).
  - reflexivity.
  - intros cits. discriminate.
Defined.

Lemma invokeBedrockRetrieval_all_or_nothing_witness :
  exists e,
    fst (Retrieval.invokeBedrockRetrieval
           (stub_upstream (Throw (Error (str "unused")))
                          (Ok stub_response_malformed))
           (str "what is x?") VUndefined empty_world)
    = Throw e.
Proof.
  apply (@invokeBedrockRetrieval_all_or_nothing
           (stub_upstream (Throw (Error (str "unused")))
                          (Ok stub_response_malformed))
           (str "what is x?") VUndefined stub_response_malformed
           [stub_citation ["s3://docs/a.pdf"];
            stub_citation ["s3://docs/b.pdf"; "not-a-uri"]]
           (map stub_reference ["s3://docs/b.pdf"; "not-a-uri"])
           (stub_citation ["s3://docs/b.pdf"; "not-a-uri"])
           (stub_reference "not-a-uri") empty_world).
  - reflexivity.
  - reflexivity.
  - simpl. tauto.
  - reflexivity.
  - simpl. tauto.
  - intros (bucket & key & Huri & _). vm_compute in Huri. discriminate.
Defined.

(** * Further properties of the agent client *)

Section MoreAgentFacts.
Context {P : Platform} (U : Upstream).

(** The loop either reads every event as a payload part, or stops at an
    event without one. *)
Lemma consume_outcome (evs : list ResponseStream) :
  forall (completion : jsstring) (w : World),
    (exists parts,
       evs = map part_event parts
       /\ fst (Agent.consume evs completion w)
          = Ok (completion
                  ++ List.concat (map (fun p => Agent.decode (bytes p)) parts)))
    \/ ((forall parts, evs <> map part_event parts)
        /\ fst (Agent.consume evs completion w)
           = Throw (cannot_read "undefined" "bytes")).
Proof.
  induction evs as [|[[p|]] evs IH]; intros completion w.
  - left. exists []. split; [reflexivity|]. simpl. now rewrite app_nil_r.
  - simpl. unfold Async.bind, Async.print. simpl.
    match goal with
    | |- context [Agent.consume evs ?c ?w1] =>
        destruct (IH c w1) as [(parts & -> & Hc)|[Hnot Hc]]
    end.
    + left. exists (p :: parts). split; [reflexivity|].
      rewrite Hc. simpl. now rewrite app_assoc.
    + right. split; [|exact Hc].
      intros [|q parts]; [discriminate|].
      simpl. intros [= _ Hevs]. exact (Hnot parts Hevs).
  - right. split; [|reflexivity].
    intros [|q parts]; discriminate.
Qed.

Lemma consume_same_commands (evs : list ResponseStream) :
  forall (completion : jsstring) (w : World),
    agent_calls (snd (Agent.consume evs completion w)) = agent_calls w.
Proof.
  induction evs as [|[[p|]] evs IH]; intros c w; simpl; try reflexivity.
  unfold Async.bind, Async.print. simpl. now rewrite IH.
Qed.

Lemma invokeBedrockAgent_total (prompt sessionId : jsstring) (w : World) :
  (exists r, fst (Agent.invokeBedrockAgent U prompt sessionId w) = Ok r)
  /\ agent_calls (snd (Agent.invokeBedrockAgent U prompt sessionId w))
     = agent_calls w ++ [agent_command U prompt sessionId].
Proof.
  unfold Agent.invokeBedrockAgent, Async.try_catch, Async.bind,
    Agent.client_send.
  fold (agent_command U prompt sessionId).
  destruct (send_InvokeAgent U (agent_command U prompt sessionId))
    as [[[stream|]]|e]; simpl.
  - unfold Agent.for_await, Async.bind.
    match goal with
    | |- context [Agent.consume ?evs ?c ?w1] =>
        pose proof (consume_same_commands evs c w1) as Hk;
        destruct (Agent.consume evs c w1) as [[c'|e] w2]
    end; simpl in Hk.
    + destruct (failure stream); simpl; split; eauto.
    + simpl. split; eauto.
  - split; eauto.
  - split; eauto.
Qed.

(** The outcome does not depend on what was called before. *)
Lemma invokeBedrockAgent_outcome_any (prompt sessionId : jsstring)
    (w w' : World) :
  fst (Agent.invokeBedrockAgent U prompt sessionId w)
  = fst (Agent.invokeBedrockAgent U prompt sessionId w').
Proof.
  unfold Agent.invokeBedrockAgent, Async.try_catch, Async.bind,
    Agent.client_send.
  fold (agent_command U prompt sessionId).
  destruct (send_InvokeAgent U (agent_command U prompt sessionId))
    as [[[[evs fail]|]]|e]; simpl; try reflexivity.
  unfold Agent.for_await, Async.bind. simpl.
  repeat match goal with
  | |- context [Agent.consume evs ?c ?w1] =>
      let H := fresh "H" in
      let o := fresh "o" in
      let w2 := fresh "w" in
      pose proof (consume_outcome evs c w1) as H;
      destruct (Agent.consume evs c w1) as [o w2]; simpl in H
  end.
  destruct H as [(parts & He & ->)|[Hn ->]];
    destruct H0 as [(parts' & He' & ->)|[Hn' ->]].
  - assert (parts' = parts) as ->.
    { rewrite He in He'. clear - He'. revert parts' He'.
      induction parts as [|p parts IH]; intros [|q parts'] Hev;
        try discriminate; [reflexivity|].
      simpl in Hev. injection Hev as -> Hev. f_equal. now apply IH. }
    destruct fail; reflexivity.
  - now destruct (Hn' parts).
  - now destruct (Hn parts').
  - reflexivity.
Qed.

(** X16: [invokeBedrockAgent] never throws, whatever the upstream does,
    and it sends exactly one command, which carries the prompt and the
    session identifier as given. *)
Theorem invokeBedrockAgent_never_throws (prompt sessionId : jsstring)
    (w : World) :
  (exists r, fst (Agent.invokeBedrockAgent U prompt sessionId w) = Ok r)
  /\ agent_calls (snd (Agent.invokeBedrockAgent U prompt sessionId w))
     = agent_calls w ++ [agent_command U prompt sessionId]
  /\ inputText (agent_command U prompt sessionId) = prompt
  /\ Sdk.sessionId (agent_command U prompt sessionId) = sessionId.
Proof.
  destruct (invokeBedrockAgent_total prompt sessionId w) as [H1 H2].
  repeat split; assumption.
Qed.

(** X17: an upstream failure is printed and swallowed: the call returns
    [undefined]. *)
Theorem invokeBedrockAgent_swallows_upstream_failure
    (prompt sessionId : jsstring) (e : js_error) (w : World) :
  send_InvokeAgent U (agent_command U prompt sessionId) = Throw e ->
  Agent.invokeBedrockAgent U prompt sessionId w
  = (Ok None,
     printed (console_error [ArgError e])
       (agent_called (agent_command U prompt sessionId) w)).
Proof.
  intros Hsend.
  unfold Agent.invokeBedrockAgent, Async.try_catch, Async.bind,
    Agent.client_send.
  fold (agent_command U prompt sessionId). rewrite Hsend. reflexivity.
Qed.

(** X18: [invokeBedrockAgent] returns an object exactly when the
    upstream answers with a stream that ends normally and whose events
    all carry a payload part; the completion is then the decoded parts
    in order (a part without bytes counts as empty). A stream that
    breaks, or an event of another kind, leaves [undefined], not the
    text received so far. *)
Theorem invokeBedrockAgent_returns_iff (prompt sessionId : jsstring)
    (r : Agent.result) (w : World) :
  fst (Agent.invokeBedrockAgent U prompt sessionId w) = Ok (Some r)
  <-> exists parts,
        send_InvokeAgent U (agent_command U prompt sessionId)
        = Ok {| completion :=
                  Some {| events := map part_event parts;
                          failure := None |} |}
        /\ r = {| Agent.result_sessionId := sessionId;
                  Agent.result_completion :=
                    List.concat
                      (map (fun p => Agent.decode (bytes p)) parts) |}.
Proof.
  unfold Agent.invokeBedrockAgent, Async.try_catch, Async.bind,
    Agent.client_send.
  fold (agent_command U prompt sessionId).
  destruct (send_InvokeAgent U (agent_command U prompt sessionId))
    as [[[[evs fail]|]]|e]; simpl.
  - unfold Agent.for_await, Async.bind. simpl.
    match goal with
    | |- context [Agent.consume evs ?c ?w1] =>
        destruct (consume_outcome evs c w1) as [(parts & -> & Hc)|[Hnot Hc]];
        destruct (Agent.consume _ c w1) as [o w2]
    end; simpl in Hc; subst o.
    + destruct fail as [e|]; simpl.
      * split; [discriminate|]. intros (parts' & [= _] & _).
      * split.
        -- intros [= <-]. exists parts. split; reflexivity.
        -- intros (parts' & [= Hev] & ->).
           assert (parts' = parts) as ->; [|reflexivity].
           clear - Hev. revert parts' Hev.
           induction parts as [|p parts IH]; intros [|q parts'] Hev;
             try discriminate; [reflexivity|].
           simpl in Hev. injection Hev as -> Hev. f_equal. now apply IH.
    + simpl. split; [discriminate|].
      intros (parts & [= Hev _] & _). now destruct (Hnot parts).
  - split; [discriminate|]. intros (parts & [=] & _).
  - split; [discriminate|]. intros (parts & [=] & _).
Qed.

End MoreAgentFacts.

Lemma invokeBedrockAgent_swallows_upstream_failure_witness :
  @Agent.invokeBedrockAgent ascii_platform
     (stub_upstream (Throw stub_service_exception)
                    (Throw (Error (str "unused"))))
     (str "hello") (str "abc") empty_world
  = (Ok None,
     {| agent_calls :=
          [{| agentId := None; agentAliasId := None;
              sessionId := str "abc"; inputText := str "hello" |}];
        retrieval_calls := []; signer_calls := [];
        console := [console_error [ArgError stub_service_exception]] |}).
Proof.
  apply (@invokeBedrockAgent_swallows_upstream_failure ascii_platform
           (stub_upstream (Throw stub_service_exception)
                          (Throw (Error (str "unused"))))
           (str "hello") (str "abc") stub_service_exception empty_world).
  reflexivity.
Defined.

(** * Further properties of the routes *)

Lemma truthy_nonempty (s : jsstring) :
  s <> [] -> truthy (VString s) = true.
Proof.
  intros Hne. unfold truthy, jsstring_eqb.
  match goal with
  | |- context [list_eq_dec ?d ?a ?b] => destruct (list_eq_dec d a b)
  end; [contradiction|reflexivity].
Qed.

Section AgentRouteFacts.
Context {P : Platform} (U : Upstream).

Lemma invokeBedrockAgent_streamed (prompt sessionId : jsstring)
    (chunks : list (list N)) (w : World) :
  send_InvokeAgent U (agent_command U prompt sessionId)
    = Ok (streamed chunks) ->
  fst (Agent.invokeBedrockAgent U prompt sessionId w)
  = Ok (Some {| Agent.result_sessionId := sessionId;
                Agent.result_completion :=
                  List.concat (map utf8_decode chunks) |}).
Proof.
  intros Hsend.
  unfold Agent.invokeBedrockAgent, Async.try_catch, Async.bind,
    Agent.client_send.
  fold (agent_command U prompt sessionId). rewrite Hsend. simpl.
  unfold Agent.for_await, Async.bind. simpl.
  match goal with
  | |- context [Agent.consume _ ?c ?w1] =>
      pose proof (consume_chunks chunks c w1) as Hc;
      destruct (Agent.consume (map chunk_event chunks) c w1) as [o w']
  end.
  simpl in Hc. subst o. reflexivity.
Qed.

(** X19: without a truthy [message] (none, [null], an empty string) the
    /agent route answers 400 with [Prompt is required] and calls
    nothing. *)
Theorem post_agent_requires_message (uuid : jsstring)
    (props : list (string * value)) (w : World) :
  truthy (get_own "message" props) = false ->
  AgentRoute.post_agent U uuid (VObject props) w
  = (Ok {| Index.status := VNumber 400; Index.body := prompt_required |},
     printed (console_log [ArgValue (get_own "message" props)]) w).
Proof.
  intros Hm.
  unfold AgentRoute.post_agent, Async.bind, Async.lift, Async.print.
  simpl get. cbv beta iota. now rewrite Hm.
Qed.

(** X20: when the upstream streams chunks for the sanitized message, the
    /agent route answers 200 with their decoded text, and the one
    command it sent carries the sanitized message and the token drawn
    for the request. *)
Theorem post_agent_relays_completion (uuid : jsstring)
    (props : list (string * value)) (message prompt : jsstring)
    (chunks : list (list N)) (w : World) :
  get_own "message" props = VString message ->
  message <> [] ->
  Utils.sanitize message = Ok prompt ->
  send_InvokeAgent U (agent_command U prompt uuid) = Ok (streamed chunks) ->
  fst (AgentRoute.post_agent U uuid (VObject props) w)
  = Ok {| Index.status := VNumber 200;
          Index.body := VString (List.concat (map utf8_decode chunks)) |}
  /\ agent_calls (snd (AgentRoute.post_agent U uuid (VObject props) w))
     = agent_calls w ++ [agent_command U prompt uuid].
Proof.
  intros Hm Hne Hs Hsend.
  unfold AgentRoute.post_agent, Async.bind, Async.lift, Async.print,
    Async.try_catch.
  simpl get. cbv beta iota. rewrite Hm.
  rewrite (@truthy_nonempty message Hne).
  cbv beta iota delta [negb]. simpl on_string. rewrite Hs.
  match goal with
  | |- context [Agent.invokeBedrockAgent U prompt uuid ?w1] =>
      pose proof (@invokeBedrockAgent_streamed prompt uuid chunks w1 Hsend)
        as Hf;
      destruct (invokeBedrockAgent_total U prompt uuid w1) as [_ Hc];
      destruct (Agent.invokeBedrockAgent U prompt uuid w1) as [o w2]
  end.
  simpl in Hf, Hc. subst o. simpl. split; [reflexivity|exact Hc].
Qed.

(** X21: whenever the agent client returns [undefined] for the
    sanitized message (upstream failure, no stream, broken stream), the
    /agent route answers 500 with [Failed to connect to external API]. *)
Theorem post_agent_fails_on_undefined (uuid : jsstring)
    (props : list (string * value)) (message prompt : jsstring)
    (w0 w : World) :
  get_own "message" props = VString message ->
  message <> [] ->
  Utils.sanitize message = Ok prompt ->
  fst (Agent.invokeBedrockAgent U prompt uuid w0) = Ok None ->
  fst (AgentRoute.post_agent U uuid (VObject props) w)
  = Ok {| Index.status := VNumber 500; Index.body := failed_to_connect |}.
Proof.
  intros Hm Hne Hs Hnone.
  unfold AgentRoute.post_agent, Async.bind, Async.lift, Async.print,
    Async.try_catch.
  simpl get. cbv beta iota. rewrite Hm.
  rewrite (@truthy_nonempty message Hne).
  cbv beta iota delta [negb]. simpl on_string. rewrite Hs.
  match goal with
  | |- context [Agent.invokeBedrockAgent U prompt uuid ?w1] =>
      pose proof (invokeBedrockAgent_outcome_any U prompt uuid w1 w0) as Hf;
      destruct (Agent.invokeBedrockAgent U prompt uuid w1) as [o w2]
  end.
  simpl in Hf. rewrite Hnone in Hf. subst o. reflexivity.
Qed.

(** X22: a message whose cleaned form is longer than 2048 code units
    makes the /agent route answer 500, the same answer as for an
    upstream failure, and nothing is sent upstream. *)
Theorem post_agent_refuses_long_prompt (uuid : jsstring)
    (props : list (string * value)) (message : jsstring) (w : World) :
  get_own "message" props = VString message ->
  message <> [] ->
  2048 < List.length (cleaned message) ->
  AgentRoute.post_agent U uuid (VObject props) w
  = (Ok {| Index.status := VNumber 500; Index.body := failed_to_connect |},
     printed (console_error [ArgError (Error (str "Prompt is too long"))])
       (printed (console_log [ArgValue (VString message)]) w)).
Proof.
  intros Hm Hne Hlen.
  unfold AgentRoute.post_agent, Async.bind, Async.lift, Async.print,
    Async.try_catch.
  simpl get. cbv beta iota. rewrite Hm.
  rewrite (@truthy_nonempty message Hne).
  cbv beta iota delta [negb]. simpl on_string.
  unfold Utils.sanitize. rewrite sanitizedPrompt_is_strip.
  fold (cleaned message).
  apply Nat.ltb_lt in Hlen. rewrite Hlen. reflexivity.
Qed.

End AgentRouteFacts.

Lemma sanitizeSessionID_chars (input : jsstring) :
  forallb Utils.is_session_char (Utils.sanitizeSessionID input) = true.
Proof.
  unfold Utils.sanitizeSessionID. rewrite replace_g_empty.
  apply forallb_forall. intros c Hc. apply filter_In in Hc.
  destruct Hc as [_ Hc]. now apply negb_true_iff, negb_false_iff in Hc.
Qed.

Section RetrieveRouteFacts.
Context {P : Platform} {H : HttpLayer} (U : Upstream).

(** X23: without a truthy [message] the /retrieve route answers 400
    with [Prompt is required] and calls nothing, whatever [session_id]
    is. *)
Theorem post_retrieve_requires_message (props : list (string * value))
    (w : World) :
  truthy (get_own "message" props) = false ->
  Index.post_retrieve U (VObject props) w
  = (Ok {| Index.status := VNumber 400; Index.body := prompt_required |},
     printed (console_log [ArgValue (VString (str "Prompt:"));
                           ArgValue (get_own "message" props)]) w).
Proof.
  intros Hm.
  unfold Index.post_retrieve, Async.bind, Async.lift, Async.print.
  simpl get. cbv beta iota. now rewrite Hm.
Qed.

(** X24: whatever the request body, the /retrieve route sends at most
    one request upstream, and what it sends is sanitized: the text has
    none of the five characters and at most 2048 code units, and the
    session identifier, present exactly when it is not empty, has only
    characters of the session class. *)
Theorem post_retrieve_sends_only_sanitized (req_body : value) (w : World) :
  retrieval_calls (snd (Index.post_retrieve U req_body w))
    = retrieval_calls w
  \/ exists prompt sessionId request,
       retrieval_calls (snd (Index.post_retrieve U req_body w))
         = retrieval_calls w ++ [VObject request]
       /\ get_opt "text" (get_own "input" request) = VString prompt
       /\ forallb (fun c => negb (Utils.is_special c)) prompt = true
       /\ List.length prompt <= 2048
       /\ lookup "sessionId" request
          = match sessionId with
            | [] => None
            | _ => Some (VString sessionId)
            end
       /\ forallb Utils.is_session_char sessionId = true.
Proof.
  unfold Index.post_retrieve, Async.bind, Async.lift, Async.print,
    Async.try_catch, Async.ret.
  destruct (get "message" req_body) as [message|]; [|left; handled; reflexivity].
  destruct (get "session_id" req_body) as [session_id|]; [|left; handled; reflexivity].
  destruct (truthy message); cbv beta iota delta [negb]; [|left; handled; reflexivity].
  destruct message as [| | b | n | s | l | o]; simpl on_string;
    try (left; handled; reflexivity).
  destruct (Utils.sanitize s) as [prompt|] eqn:Hs; [|left; handled; reflexivity].
  destruct session_id as [| | b | n | sid | l | o]; simpl on_string;
    try (left; handled; reflexivity).
  right. exists prompt, (Utils.sanitizeSessionID sid).
  destruct (@invokeBedrockRetrieval_sends_once_aux U prompt
              (VString (Utils.sanitizeSessionID sid))
              (printed (console_log [ArgValue (VString (str "Prompt:"));
                                     ArgValue (VString s)]) w))
    as (request & Hreq & Hsid & Htext).
  exists request.
  destruct (@sanitize_ok_inv P s prompt Hs) as (_ & Hclean & Hlen).
  unfold printed in Hreq. simpl in Hreq.
  match goal with
  | |- context [Retrieval.invokeBedrockRetrieval U prompt ?v ?w1] =>
      destruct (Retrieval.invokeBedrockRetrieval U prompt v w1)
        as [[r|e] w2]
  end;
    [|destruct (err_code e) as [code|];
      [destruct (truthy (VString code));
       [destruct (status_of_string code)|]|]];
    simpl in Hreq |- *;
    (split; [exact Hreq|]); (split; [exact Htext|]);
    (split; [exact Hclean|]); (split; [exact Hlen|]);
    (split; [|apply sanitizeSessionID_chars]);
    rewrite Hsid; unfold truthy, jsstring_eqb;
    destruct (Utils.sanitizeSessionID sid); reflexivity.
Qed.

(** X25: for a message and a session identifier that are strings, when
    the upstream answers and its citations resolve, the /retrieve route
    answers 200 with what [invokeBedrockRetrieval] returns for the
    sanitized message and the sanitized session identifier. *)
Theorem post_retrieve_relays_result (props : list (string * value))
    (message prompt session_id : jsstring) (response : value)
    (citations : list value) (w : World) :
  get_own "message" props = VString message ->
  message <> [] ->
  Utils.sanitize message = Ok prompt ->
  get_own "session_id" props = VString session_id ->
  send_RetrieveAndGenerate U
    (retrieval_request U prompt
       (VString (Utils.sanitizeSessionID session_id)))
  = Ok response ->
  citations_resolution U response = Ok citations ->
  fst (Index.post_retrieve U (VObject props) w)
  = Ok {| Index.status := VNumber 200;
          Index.body :=
            VObject
              [("sessionId", VString (Utils.sanitizeSessionID session_id));
               ("response",
                normalized (get_opt "sessionId" response)
                  (get_opt "text" (get_opt "output" response))
                  citations
                  (get_opt "guardrailAction" response))] |}.
Proof.
  intros Hm Hne Hs Hsid Hsend Hcits.
  unfold Index.post_retrieve, Async.bind, Async.lift, Async.print,
    Async.try_catch, Async.ret.
  simpl get. cbv beta iota. rewrite Hm, Hsid.
  rewrite (@truthy_nonempty message Hne).
  cbv beta iota delta [negb]. simpl on_string. rewrite Hs.
  match goal with
  | |- context [Retrieval.invokeBedrockRetrieval U prompt ?v ?w1] =>
      pose proof (invokeBedrockRetrieval_outcome U prompt v w1) as Ho;
      destruct (Retrieval.invokeBedrockRetrieval U prompt v w1) as [o w2]
  end.
  simpl in Ho. rewrite Hsend, Hcits in Ho. subst o. reflexivity.
Qed.

(** X26: an upstream failure named [ServiceException] makes the
    /retrieve route answer 500 with the message built from the code and
    the message of the failure; the code does not become the status. *)
Theorem post_retrieve_service_exception (props : list (string * value))
    (message prompt session_id : jsstring) (e : js_error) (w : World) :
  get_own "message" props = VString message ->
  message <> [] ->
  Utils.sanitize message = Ok prompt ->
  get_own "session_id" props = VString session_id ->
  send_RetrieveAndGenerate U
    (retrieval_request U prompt
       (VString (Utils.sanitizeSessionID session_id)))
  = Throw e ->
  err_name e = "ServiceException" ->
  fst (Index.post_retrieve U (VObject props) w)
  = Ok {| Index.status := VNumber 500;
          Index.body :=
            VString (str "AWS Bedrock API error: "
                       ++ match err_code e with
                          | Some c => c
                          | None => str "undefined"
                          end
                       ++ str " - " ++ err_message e) |}.
Proof.
  intros Hm Hne Hs Hsid Hsend Hname.
  unfold Index.post_retrieve, Async.bind, Async.lift, Async.print,
    Async.try_catch, Async.ret.
  simpl get. cbv beta iota. rewrite Hm, Hsid.
  rewrite (@truthy_nonempty message Hne).
  cbv beta iota delta [negb]. simpl on_string. rewrite Hs.
  match goal with
  | |- context [Retrieval.invokeBedrockRetrieval U prompt ?v ?w1] =>
      pose proof (invokeBedrockRetrieval_outcome U prompt v w1) as Ho;
      destruct (Retrieval.invokeBedrockRetrieval U prompt v w1) as [o w2]
  end.
  simpl in Ho. rewrite Hsend in Ho. unfold rethrown in Ho.
  rewrite Hname in Ho. simpl in Ho. subst o. reflexivity.
Qed.

(** X27: any other upstream failure that carries a non-empty [code]
    makes the /retrieve route hand that code to [res.status]; when the
    HTTP layer refuses it as a status, as Node does for [ECONNREFUSED],
    the error is thrown inside the [catch] block, the handler rejects
    with it and no answer is sent. *)
Theorem post_retrieve_status_from_code (props : list (string * value))
    (message prompt session_id code : jsstring) (e refusal : js_error)
    (w : World) :
  get_own "message" props = VString message ->
  message <> [] ->
  Utils.sanitize message = Ok prompt ->
  get_own "session_id" props = VString session_id ->
  send_RetrieveAndGenerate U
    (retrieval_request U prompt
       (VString (Utils.sanitizeSessionID session_id)))
  = Throw e ->
  err_name e <> "ServiceException" ->
  err_code e = Some code ->
  code <> [] ->
  status_of_string code = Throw refusal ->
  fst (Index.post_retrieve U (VObject props) w) = Throw refusal.
Proof.
  intros Hm Hne Hs Hsid Hsend Hname Hcode Hc Hrefuse.
  unfold Index.post_retrieve, Async.bind, Async.lift, Async.print,
    Async.try_catch, Async.ret.
  simpl get. cbv beta iota. rewrite Hm, Hsid.
  rewrite (@truthy_nonempty message Hne).
  cbv beta iota delta [negb]. simpl on_string. rewrite Hs.
  match goal with
  | |- context [Retrieval.invokeBedrockRetrieval U prompt ?v ?w1] =>
      pose proof (invokeBedrockRetrieval_outcome U prompt v w1) as Ho;
      destruct (Retrieval.invokeBedrockRetrieval U prompt v w1) as [o w2]
  end.
  simpl in Ho. rewrite Hsend in Ho. unfold rethrown in Ho.
  apply String.eqb_neq in Hname. rewrite Hname in Ho. subst o.
  cbv beta iota. rewrite Hcode, (@truthy_nonempty code Hc), Hrefuse.
  reflexivity.
Qed.

End RetrieveRouteFacts.

Lemma post_agent_requires_message_witness :
  @AgentRoute.post_agent ascii_platform
     (stub_upstream (Ok (streamed [str "He"; str "llo"]))
                    (Throw (Error (str "unused"))))
     stub_uuid (VObject [("message", VString (str ""))]) empty_world
  = (Ok {| Index.status := VNumber 400; Index.body := prompt_required |},
     {| agent_calls := []; retrieval_calls := []; signer_calls := [];
        console := [console_log [ArgValue (VString (str ""))]] |}).
Proof.
  apply (@post_agent_requires_message ascii_platform
           (stub_upstream (Ok (streamed [str "He"; str "llo"]))
                          (Throw (Error (str "unused"))))
           stub_uuid [("message", VString (str ""))] empty_world).
  reflexivity.
Defined.

Lemma post_agent_relays_completion_witness :
  fst (@AgentRoute.post_agent ascii_platform
         (stub_upstream (Ok (streamed [str "He"; str "llo"]))
                        (Throw (Error (str "unused"))))
         stub_uuid (VObject [("message", VString (str " Hi <b> "))])
         empty_world)
  = Ok {| Index.status := VNumber 200;
          Index.body := VString (str "Hello") |}
  /\ agent_calls
       (snd (@AgentRoute.post_agent ascii_platform
               (stub_upstream (Ok (streamed [str "He"; str "llo"]))
                              (Throw (Error (str "unused"))))
               stub_uuid (VObject [("message", VString (str " Hi <b> "))])
               empty_world))
     = [] ++ [{| agentId := None; agentAliasId := None;
                 sessionId := stub_uuid; inputText := str "hi b" |}].
Proof.
  apply (@post_agent_relays_completion ascii_platform
           (stub_upstream (Ok (streamed [str "He"; str "llo"]))
                          (Throw (Error (str "unused"))))
           stub_uuid [("message", VString (str " Hi <b> "))]
           (str " Hi <b> ") (str "hi b") [str "He"; str "llo"] empty_world).
  - reflexivity.
  - discriminate.
  - reflexivity.
  - reflexivity.
Defined.

Lemma post_agent_fails_on_undefined_witness :
  fst (@AgentRoute.post_agent ascii_platform
         (stub_upstream (Throw stub_network_error)
                        (Throw (Error (str "unused"))))
         stub_uuid (VObject [("message", VString (str "hello"))])
         empty_world)
  = Ok {| Index.status := VNumber 500; Index.body := failed_to_connect |}.
Proof.
  apply (@post_agent_fails_on_undefined ascii_platform
           (stub_upstream (Throw stub_network_error)
                          (Throw (Error (str "unused"))))
           stub_uuid [("message", VString (str "hello"))]
           (str "hello") (str "hello") empty_world empty_world).
  - reflexivity.
  - discriminate.
  - reflexivity.
  - reflexivity.
Defined.

Lemma post_agent_refuses_long_prompt_witness :
  @AgentRoute.post_agent ascii_platform
     (stub_upstream (Ok (streamed [str "He"; str "llo"]))
                    (Throw (Error (str "unused"))))
     stub_uuid (VObject [("message", VString (repeat (chr "a") 2049))])
     empty_world
  = (Ok {| Index.status := VNumber 500; Index.body := failed_to_connect |},
     printed (console_error [ArgError (Error (str "Prompt is too long"))])
       (printed (console_log [ArgValue (VString (repeat (chr "a") 2049))])
          empty_world)).
Proof.
  apply (@post_agent_refuses_long_prompt ascii_platform
           (stub_upstream (Ok (streamed [str "He"; str "llo"]))
                          (Throw (Error (str "unused"))))
           stub_uuid [("message", VString (repeat (chr "a") 2049))]
           (repeat (chr "a") 2049) empty_world).
  - reflexivity.
  - discriminate.
  - apply Nat.ltb_lt. vm_compute. reflexivity.
Defined.

Lemma post_retrieve_requires_message_witness :
  @Index.post_retrieve ascii_platform stub_http
     (stub_upstream (Throw (Error (str "unused"))) (Ok stub_response))
     (VObject [("session_id", VString (str "s-123"))]) empty_world
  = (Ok {| Index.status := VNumber 400; Index.body := prompt_required |},
     {| agent_calls := []; retrieval_calls := []; signer_calls := [];
        console := [console_log [ArgValue (VString (str "Prompt:"));
                                 ArgValue VUndefined]] |}).
Proof.
  apply (@post_retrieve_requires_message ascii_platform stub_http
           (stub_upstream (Throw (Error (str "unused"))) (Ok stub_response))
           [("session_id", VString (str "s-123"))] empty_world).
  reflexivity.
Defined.

Lemma post_retrieve_relays_result_witness :
  fst (@Index.post_retrieve ascii_platform stub_http
         (stub_upstream (Throw (Error (str "unused"))) (Ok stub_response))
         (VObject [("message", VString (str "What is <X>?"));
                   ("session_id", VString (str "s-123 "))])
         empty_world)
  = Ok {| Index.status := VNumber 200;
          Index.body :=
            VObject
              [("sessionId", VString (str "s-123"));
               ("response",
                normalized (VString (str "s-123")) (VString (str "answer"))
                  [VObject
                     [("metadata", VUndefined);
                      ("retrievedReferences", VArray
                         [VObject (spread (stub_reference "s3://docs/a.pdf")
                            ++ [("signedUrl", VString (str
  "https://docs.s3.amazonaws.com/a.pdf?X-Amz-Signature=0"))]);
                          VObject
                            (spread (stub_reference "s3://docs/dir/b.pdf")
                            ++ [("signedUrl", VString (str
  "https://docs.s3.amazonaws.com/dir/b.pdf?X-Amz-Signature=0"))])])]]
                  VUndefined)] |}.
Proof.
  apply (@post_retrieve_relays_result ascii_platform stub_http
           (stub_upstream (Throw (Error (str "unused"))) (Ok stub_response))
           [("message", VString (str "What is <X>?"));
            ("session_id", VString (str "s-123 "))]
           (str "What is <X>?") (str "what is x?") (str "s-123 ")
           stub_response _ empty_world).
  - reflexivity.
  - discriminate.
  - reflexivity.
  - reflexivity.
  - reflexivity.
  - vm_compute. reflexivity.
Defined.

Lemma post_retrieve_service_exception_witness :
  fst (@Index.post_retrieve ascii_platform stub_http
         (stub_upstream (Throw (Error (str "unused")))
                        (Throw stub_service_exception))
         (VObject [("message", VString (str "What is X?"));
                   ("session_id", VString (str "s-123"))])
         empty_world)
  = Ok {| Index.status := VNumber 500;
          Index.body := VString (str
            "AWS Bedrock API error: ThrottlingException - Rate exceeded") |}.
Proof.
  apply (@post_retrieve_service_exception ascii_platform stub_http
           (stub_upstream (Throw (Error (str "unused")))
                          (Throw stub_service_exception))
           [("message", VString (str "What is X?"));
            ("session_id", VString (str "s-123"))]
           (str "What is X?") (str "what is x?") (str "s-123")
           stub_service_exception empty_world);
    try reflexivity.
  discriminate.
Defined.

Lemma post_retrieve_status_from_code_witness :
  fst (@Index.post_retrieve ascii_platform stub_http
         (stub_upstream (Throw (Error (str "unused")))
                        (Throw stub_network_error))
         (VObject [("message", VString (str "What is X?"));
                   ("session_id", VString (str "s-123"))])
         empty_world)
  = Throw (invalid_status_code (str "ECONNREFUSED")).
Proof.
  apply (@post_retrieve_status_from_code ascii_platform stub_http
           (stub_upstream (Throw (Error (str "unused")))
                          (Throw stub_network_error))
           [("message", VString (str "What is X?"));
            ("session_id", VString (str "s-123"))]
           (str "What is X?") (str "what is x?") (str "s-123")
           (str "ECONNREFUSED") stub_network_error
           (invalid_status_code (str "ECONNREFUSED")) empty_world);
    try reflexivity; discriminate.
Defined.
